(** * Audio looper: a shallow embedding of the React components

    The repository is a browser multi-track looper made of four components:
    [WaveformDisplay] (region selection on a canvas), [Knob] (a drag-driven
    numeric control), [AudioTrack] (one track: clip, loop region, effects,
    Web Audio graph) and [AudioLooper] (the session: track list, transport,
    master recording).

    Conventions of the embedding.
    - A JavaScript [number] is modelled as an exact rational ([Q]); the
      model covers finite values and does not round.  The inputs at which
      a property is shown to fail are small integers and halves, for which
      binary64 arithmetic is exact as well.
    - React state ([useState]) and refs ([useRef]) of a component become the
      fields of a record; an event handler is a function from the record (and
      the event) to the next record, plus whatever it reports upward.
    - [console.error] / [console.warn] append to an explicit log.
    - The Web Audio context is a store of created nodes and connections,
      threaded through [setupAudioNodes] by a state monad. *)

From Stdlib Require Import QArith Qround Qabs Qminmax Lqa Lia ZArith List Bool String.
From Stdlib Require Import Ascii DecimalString DecimalNat.
From ExtLib Require Import Structures.Monad Structures.MonadState.
From ExtLib Require Import Data.Monads.StateMonad.
Import ListNotations.

Local Open Scope Q_scope.

(** ** JavaScript numbers and the [Math] object *)

Module JS.

Definition number := Q.

(** [a < b], [a > b], [a !== b] on numbers, as booleans. *)
Definition lt (a b : number) : bool := negb (Qle_bool b a).
Definition gt (a b : number) : bool := lt b a.
Definition neq (a b : number) : bool := negb (Qeq_bool a b).

Definition Math_max (a b : number) : number := if lt a b then b else a.
Definition Math_min (a b : number) : number := if lt b a then b else a.
Definition Math_abs (a : number) : number := if lt a 0 then - a else a.

(** [Math.round] rounds to the nearest integer, ties towards +infinity. *)
Definition Math_round (a : number) : number := inject_Z (Qfloor (a + (1 # 2))).

End JS.

(** ** components/waveform-display.tsx *)

Module WaveformDisplay.

(** The part of [canvas.getBoundingClientRect()] the handlers read. *)
Record DOMRect := { left : JS.number; width : JS.number; height : JS.number }.

Record Props := {
  duration : JS.number;        (* audioBuffer.duration *)
  loopStart : JS.number;
  loopEnd : JS.number
}.

Record State := {
  canvasRef : option DOMRect;  (* canvasRef.current, [None] for null *)
  isDragging : bool;
  dragStart : option JS.number;
  dragEnd : option JS.number;
  canvasWidth : JS.number;
  canvasHeight : JS.number
}.

Definition setDrag (d : bool) (s e : option JS.number) (st : State) : State :=
  {| canvasRef := canvasRef st; isDragging := d; dragStart := s; dragEnd := e;
     canvasWidth := canvasWidth st; canvasHeight := canvasHeight st |}.

Definition setIsDragging (d : bool) (st : State) : State :=
  setDrag d (dragStart st) (dragEnd st) st.

Definition setDragEnd (e : option JS.number) (st : State) : State :=
  setDrag (isDragging st) (dragStart st) e st.

Definition getPositionFromEvent (p : Props) (st : State) (clientX : JS.number) : JS.number :=
  match canvasRef st with
  | None => 0
  | Some rect =>
      let x := clientX - left rect in
      (x / canvasWidth st) * duration p
  end.

Definition handleMouseDown (p : Props) (st : State) (clientX : JS.number) : State :=
  let position := getPositionFromEvent p st clientX in
  setDrag true (Some position) (Some position) st.

Definition handleMouseMove (p : Props) (st : State) (clientX : JS.number) : State :=
  match isDragging st, canvasRef st, dragStart st with
  | true, Some _, Some _ =>
      let position := getPositionFromEvent p st clientX in
      setDragEnd (Some position) st
  | _, _, _ => st
  end.

(** The second component is the call of [onRegionChange], if any. *)
Definition handleMouseUp (st : State) : State * option (JS.number * JS.number) :=
  let notified :=
    match isDragging st, dragStart st, dragEnd st with
    | true, Some ds, Some de =>
        let start := JS.Math_min ds de in
        let end_ := JS.Math_max ds de in
        if JS.gt (JS.Math_abs (ds - de)) (1 # 100) then Some (start, end_) else None
    | _, _, _ => None
    end in
  (setIsDragging false st, notified).

(** Touch events carry the list of active touches; only [clientX] of the
    first one is read. *)
Definition handleTouchStart (p : Props) (st : State) (touches : list JS.number) : State :=
  match touches with
  | clientX :: _ =>
      let position := getPositionFromEvent p st clientX in
      setDrag true (Some position) (Some position) st
  | [] => st
  end.

Definition handleTouchMove (p : Props) (st : State) (touches : list JS.number) : State :=
  match isDragging st, canvasRef st, dragStart st, touches with
  | true, Some _, Some _, clientX :: _ =>
      let position := getPositionFromEvent p st clientX in
      setDragEnd (Some position) st
  | _, _, _, _ => st
  end.

Definition handleTouchEnd (st : State) : State * option (JS.number * JS.number) :=
  let notified :=
    match isDragging st, dragStart st, dragEnd st with
    | true, Some ds, Some de =>
        let start := JS.Math_min ds de in
        let end_ := JS.Math_max ds de in
        if JS.gt (JS.Math_abs (ds - de)) (1 # 100) then Some (start, end_) else None
    | _, _, _ => None
    end in
  (setIsDragging false st, notified).

(** The canvas' event surface: [onMouseLeave] is bound to [handleMouseUp]. *)
Inductive Event :=
| MouseDown (clientX : JS.number)
| MouseMove (clientX : JS.number)
| MouseUp
| MouseLeave
| TouchStart (touches : list JS.number)
| TouchMove (touches : list JS.number)
| TouchEnd.

Definition dispatch (p : Props) (st : State) (ev : Event)
  : State * option (JS.number * JS.number) :=
  match ev with
  | MouseDown x => (handleMouseDown p st x, None)
  | MouseMove x => (handleMouseMove p st x, None)
  | MouseUp | MouseLeave => handleMouseUp st
  | TouchStart ts => (handleTouchStart p st ts, None)
  | TouchMove ts => (handleTouchMove p st ts, None)
  | TouchEnd => handleTouchEnd st
  end.

(** Runs a sequence of events; returns the final state and the region
    changes reported upward, oldest first. *)
Fixpoint run (p : Props) (st : State) (evs : list Event)
  : State * list (JS.number * JS.number) :=
  match evs with
  | [] => (st, [])
  | ev :: rest =>
      let '(st1, n) := dispatch p st ev in
      let '(st2, ns) := run p st1 rest in
      (st2, match n with Some r => r :: ns | None => ns end)
  end.

End WaveformDisplay.

(** ** components/knob.tsx *)

Module Knob.

Record Props := {
  value : JS.number;
  min : JS.number;
  max : JS.number;
  step : JS.number
}.

Record State := {
  isDragging : bool;
  startY : JS.number;
  startX : JS.number;
  startValue : JS.number
}.

Record Pointer := { clientX : JS.number; clientY : JS.number }.

Definition sensitivity : JS.number := 200.

(** [Some v] is the call [onChange(v)]; [None] an early return. *)
Definition handleMouseMove (p : Props) (st : State) (e : Pointer) : option JS.number :=
  if negb (isDragging st) then None
  else
    let deltaY := clientY e - startY st in
    let newValue := startValue st - (deltaY / sensitivity) * (max p - min p) in
    let newValue := JS.Math_max (min p) (JS.Math_min (max p) newValue) in
    let newValue :=
      if JS.neq (step p) 0 then JS.Math_round (newValue / step p) * step p else newValue in
    Some newValue.

Definition handleTouchMove (p : Props) (st : State) (touches : list Pointer) : option JS.number :=
  match isDragging st, touches with
  | true, touch :: _ =>
      let deltaY := clientY touch - startY st in
      let deltaX := clientX touch - startX st in
      let delta := if JS.gt (JS.Math_abs deltaY) (JS.Math_abs deltaX) then deltaY else - deltaX in
      let newValue := startValue st - (delta / sensitivity) * (max p - min p) in
      let newValue := JS.Math_max (min p) (JS.Math_min (max p) newValue) in
      let newValue :=
        if JS.neq (step p) 0 then JS.Math_round (newValue / step p) * step p else newValue in
      Some newValue
  | _, _ => None
  end.

Definition handleMouseDown (p : Props) (e : Pointer) : State :=
  {| isDragging := true; startY := clientY e; startX := clientX e; startValue := value p |}.

Definition handleTouchStart (p : Props) (st : State) (touches : list Pointer) : State :=
  match touches with
  | touch :: _ =>
      {| isDragging := true; startY := clientY touch; startX := clientX touch;
         startValue := value p |}
  | [] => st
  end.

Definition handleMouseUp (st : State) : State :=
  {| isDragging := false; startY := startY st; startX := startX st;
     startValue := startValue st |}.

End Knob.

(** ** The knob's value contract, as the specification words it

    "[newValue = clamp(startValue - delta/sensitivity * (max - min), min, max)],
    then round to the nearest multiple of [step] if [step <> 0]", with the
    divisor 200; for touch input the delta is the larger-magnitude axis,
    the horizontal one inverted. *)

Module KnobSpec.

Definition clamp (v lo hi : Q) : Q :=
  if Qlt_le_dec v lo then lo else if Qlt_le_dec hi v then hi else v.

(** [r] is a multiple of [step], and no multiple of [step] is closer to [v]. *)
Definition nearest_multiple (step v r : Q) : Prop :=
  (exists k : Z, r == inject_Z k * step) /\
  forall j : Z, Qabs (r - v) <= Qabs (inject_Z j * step - v).

Definition contract (p : Knob.Props) (startValue delta v : Q) : Prop :=
  let c := clamp (startValue - delta / 200 * (Knob.max p - Knob.min p))
             (Knob.min p) (Knob.max p) in
  (Knob.step p == 0 -> v == c) /\
  (~ Knob.step p == 0 -> nearest_multiple (Knob.step p) c v).

Definition touch_delta (deltaY deltaX : Q) : Q :=
  if Qlt_le_dec (Qabs deltaX) (Qabs deltaY) then deltaY else - deltaX.


End KnobSpec.

(** ** The Web Audio objects the track uses

    An [AudioContext] is a store: every node created through it gets the
    next identifier, and [connect] adds an edge.  Lists are kept newest
    first. *)

Module WebAudio.

Import MonadNotation.
Local Open Scope monad_scope.

Definition NodeId := nat.

Record AudioBuffer := {
  duration : JS.number;
  channelData : list JS.number
}.

Inductive Playback :=
| Unscheduled
| Started (when offset : JS.number)
| Stopped.

Inductive AudioNode :=
| AudioBufferSourceNode (buffer : option AudioBuffer) (loop : bool)
    (loopStart loopEnd : JS.number) (playback : Playback)
| GainNode (gain : JS.number)
| BiquadFilterNode (type : string) (frequency : JS.number)
| DelayNode (maxDelayTime delayTime : JS.number)
| ConvolverNode (buffer : option AudioBuffer).

(** What a node can be connected to. *)
Inductive Output :=
| ToNode (id : NodeId)
| ToDestination                 (* audioContext.destination *)
| ToMediaStreamDestination.     (* the session's recording bus *)

Inductive ContextState := Suspended | Running.

Record AudioContext := {
  state : ContextState;
  nextId : NodeId;
  nodes : list (NodeId * AudioNode);
  connections : list (NodeId * Output)
}.

Definition newAudioContext : AudioContext :=
  {| state := Suspended; nextId := O; nodes := []; connections := [] |}.

Fixpoint lookup (id : NodeId) (l : list (NodeId * AudioNode)) : option AudioNode :=
  match l with
  | [] => None
  | (i, n) :: rest => if Nat.eqb i id then Some n else lookup id rest
  end.

Fixpoint update (id : NodeId) (f : AudioNode -> AudioNode)
  (l : list (NodeId * AudioNode)) : list (NodeId * AudioNode) :=
  match l with
  | [] => []
  | (i, n) :: rest => if Nat.eqb i id then (i, f n) :: rest else (i, n) :: update id f rest
  end.

Definition createNode (n : AudioNode) : StateMonad.state AudioContext NodeId :=
  mkState (fun c =>
    (nextId c,
     {| state := state c; nextId := S (nextId c);
        nodes := (nextId c, n) :: nodes c; connections := connections c |})).

(** Factory methods, with the defaults of the Web Audio API. *)
Definition createBufferSource := createNode (AudioBufferSourceNode None false 0 0 Unscheduled).
Definition createGain := createNode (GainNode 1).
Definition createBiquadFilter := createNode (BiquadFilterNode "lowpass" 350).
Definition createDelay (maxDelayTime : JS.number) := createNode (DelayNode maxDelayTime 0).
Definition createConvolver := createNode (ConvolverNode None).

Definition setNode (id : NodeId) (f : AudioNode -> AudioNode)
  : StateMonad.state AudioContext unit :=
  mkState (fun c =>
    (tt, {| state := state c; nextId := nextId c;
            nodes := update id f (nodes c); connections := connections c |})).

Definition connect (src : NodeId) (dst : Output) : StateMonad.state AudioContext unit :=
  mkState (fun c =>
    (tt, {| state := state c; nextId := nextId c; nodes := nodes c;
            connections := (src, dst) :: connections c |})).

(** [node.disconnect()] removes every outgoing connection of the node. *)
Definition disconnect (src : NodeId) : StateMonad.state AudioContext unit :=
  mkState (fun c =>
    (tt, {| state := state c; nextId := nextId c; nodes := nodes c;
            connections := filter (fun e => negb (Nat.eqb (fst e) src)) (connections c) |})).

Definition resume (c : AudioContext) : AudioContext :=
  {| state := Running; nextId := nextId c; nodes := nodes c; connections := connections c |}.

(** Property setters on nodes. *)
Definition set_buffer (b : AudioBuffer) (n : AudioNode) : AudioNode :=
  match n with
  | AudioBufferSourceNode _ l s e p => AudioBufferSourceNode (Some b) l s e p
  | ConvolverNode _ => ConvolverNode (Some b)
  | _ => n
  end.

Definition set_loop (v : bool) (n : AudioNode) : AudioNode :=
  match n with
  | AudioBufferSourceNode b _ s e p => AudioBufferSourceNode b v s e p
  | _ => n
  end.

Definition set_loopStart (v : JS.number) (n : AudioNode) : AudioNode :=
  match n with
  | AudioBufferSourceNode b l _ e p => AudioBufferSourceNode b l v e p
  | _ => n
  end.

Definition set_loopEnd (v : JS.number) (n : AudioNode) : AudioNode :=
  match n with
  | AudioBufferSourceNode b l s _ p => AudioBufferSourceNode b l s v p
  | _ => n
  end.

Definition set_gain (v : JS.number) (n : AudioNode) : AudioNode :=
  match n with GainNode _ => GainNode v | _ => n end.

Definition set_type (v : string) (n : AudioNode) : AudioNode :=
  match n with BiquadFilterNode _ f => BiquadFilterNode v f | _ => n end.

Definition set_frequency (v : JS.number) (n : AudioNode) : AudioNode :=
  match n with BiquadFilterNode t _ => BiquadFilterNode t v | _ => n end.

Definition set_delayTime (v : JS.number) (n : AudioNode) : AudioNode :=
  match n with DelayNode m _ => DelayNode m v | _ => n end.

(** [source.start(when, offset)]; a source can be started once. *)
Definition start (when offset : JS.number) (n : AudioNode) : AudioNode :=
  match n with
  | AudioBufferSourceNode b l s e Unscheduled => AudioBufferSourceNode b l s e (Started when offset)
  | _ => n
  end.

(** [source.stop()]. *)
Definition stop (n : AudioNode) : AudioNode :=
  match n with
  | AudioBufferSourceNode b l s e (Started _ _) => AudioBufferSourceNode b l s e Stopped
  | _ => n
  end.

Definition isDelay (n : AudioNode) : bool :=
  match n with DelayNode _ _ => true | _ => false end.

Definition isConvolver (n : AudioNode) : bool :=
  match n with ConvolverNode _ => true | _ => false end.

End WebAudio.

(** ** Data shared by the recorders *)

Module Media.

(** Raw bytes: a file's contents, a recorded chunk, a blob's payload. *)
Definition ArrayBuffer := string.
Definition BlobPart := string.

Definition size (part : BlobPart) : nat := String.length part.

Record Blob := { parts : list BlobPart; type : string }.

Definition arrayBuffer (b : Blob) : ArrayBuffer := String.concat EmptyString (parts b).

(** [MediaRecorder.state]. *)
Inductive RecordingState := inactive | recording.

(** Outcome of [audioContext.decodeAudioData]: the promise resolves with a
    buffer or rejects. *)
Inductive DecodeResult :=
| Decoded (buffer : WebAudio.AudioBuffer)
| DecodeError (reason : string).

End Media.

(** ** components/audio-track.tsx

    The handlers of one track.  A handler reads the state cells of the
    render that created it and writes through the setters; refs and the
    audio context are read and written in place.  The [useEffect] hooks
    (impulse-response creation, tempo sync, restart of playback after a
    render) are not among the handlers modelled here. *)

Module AudioTrack.

Import MonadNotation.
Local Open Scope monad_scope.
Import WebAudio Media.

Record Props := {
  trackId : nat;
  masterTempo : JS.number;
  isPlaying : bool;
  destinationNode : bool       (* [true] when the prop is not null *)
}.

(** The [useState] cells. *)
Record State := {
  audioBuffer : option AudioBuffer;
  isLoading : bool;
  trackPlaying : bool;
  syncToMaster : bool;
  loopStart : JS.number;
  loopEnd : JS.number;
  trackTempo : JS.number;
  reverbAmount : JS.number;
  delayAmount : JS.number;
  filterFreq : JS.number;
  isRecording : bool
}.

(** The [useRef] cells. *)
Record Refs := {
  sourceNodeRef : option NodeId;
  gainNodeRef : option NodeId;
  reverbNodeRef : option NodeId;
  delayNodeRef : option NodeId;
  filterNodeRef : option NodeId;
  reverbImpulseRef : option AudioBuffer;
  mediaRecorderRef : option RecordingState;
  recordedChunksRef : list BlobPart
}.

(** One mounted track.  [audioContext] is the prop of that name: the
    session's context, [None] while it has not been created. *)
Record Track := {
  props : Props;
  st : State;
  refs : Refs;
  audioContext : option AudioContext;
  console : list string
}.

Definition initialState : State :=
  {| audioBuffer := None; isLoading := false; trackPlaying := false; syncToMaster := false;
     loopStart := 0; loopEnd := 1; trackTempo := 120; reverbAmount := 0; delayAmount := 0;
     filterFreq := 20000; isRecording := false |}.

Definition initialRefs : Refs :=
  {| sourceNodeRef := None; gainNodeRef := None; reverbNodeRef := None; delayNodeRef := None;
     filterNodeRef := None; reverbImpulseRef := None; mediaRecorderRef := None;
     recordedChunksRef := [] |}.

(** *** State setters *)

Definition setAudioBuffer (v : option AudioBuffer) (s : State) : State :=
  {| audioBuffer := v; isLoading := isLoading s; trackPlaying := trackPlaying s;
     syncToMaster := syncToMaster s; loopStart := loopStart s; loopEnd := loopEnd s;
     trackTempo := trackTempo s; reverbAmount := reverbAmount s; delayAmount := delayAmount s;
     filterFreq := filterFreq s; isRecording := isRecording s |}.

Definition setIsLoading (v : bool) (s : State) : State :=
  {| audioBuffer := audioBuffer s; isLoading := v; trackPlaying := trackPlaying s;
     syncToMaster := syncToMaster s; loopStart := loopStart s; loopEnd := loopEnd s;
     trackTempo := trackTempo s; reverbAmount := reverbAmount s; delayAmount := delayAmount s;
     filterFreq := filterFreq s; isRecording := isRecording s |}.

Definition setTrackPlaying (v : bool) (s : State) : State :=
  {| audioBuffer := audioBuffer s; isLoading := isLoading s; trackPlaying := v;
     syncToMaster := syncToMaster s; loopStart := loopStart s; loopEnd := loopEnd s;
     trackTempo := trackTempo s; reverbAmount := reverbAmount s; delayAmount := delayAmount s;
     filterFreq := filterFreq s; isRecording := isRecording s |}.

Definition setLoopStart (v : JS.number) (s : State) : State :=
  {| audioBuffer := audioBuffer s; isLoading := isLoading s; trackPlaying := trackPlaying s;
     syncToMaster := syncToMaster s; loopStart := v; loopEnd := loopEnd s;
     trackTempo := trackTempo s; reverbAmount := reverbAmount s; delayAmount := delayAmount s;
     filterFreq := filterFreq s; isRecording := isRecording s |}.

Definition setLoopEnd (v : JS.number) (s : State) : State :=
  {| audioBuffer := audioBuffer s; isLoading := isLoading s; trackPlaying := trackPlaying s;
     syncToMaster := syncToMaster s; loopStart := loopStart s; loopEnd := v;
     trackTempo := trackTempo s; reverbAmount := reverbAmount s; delayAmount := delayAmount s;
     filterFreq := filterFreq s; isRecording := isRecording s |}.

Definition setIsRecording (v : bool) (s : State) : State :=
  {| audioBuffer := audioBuffer s; isLoading := isLoading s; trackPlaying := trackPlaying s;
     syncToMaster := syncToMaster s; loopStart := loopStart s; loopEnd := loopEnd s;
     trackTempo := trackTempo s; reverbAmount := reverbAmount s; delayAmount := delayAmount s;
     filterFreq := filterFreq s; isRecording := v |}.

(** *** Ref setters *)

Definition setSourceNodeRef (v : option NodeId) (r : Refs) : Refs :=
  {| sourceNodeRef := v; gainNodeRef := gainNodeRef r; reverbNodeRef := reverbNodeRef r;
     delayNodeRef := delayNodeRef r; filterNodeRef := filterNodeRef r;
     reverbImpulseRef := reverbImpulseRef r; mediaRecorderRef := mediaRecorderRef r;
     recordedChunksRef := recordedChunksRef r |}.

Definition setGainNodeRef (v : option NodeId) (r : Refs) : Refs :=
  {| sourceNodeRef := sourceNodeRef r; gainNodeRef := v; reverbNodeRef := reverbNodeRef r;
     delayNodeRef := delayNodeRef r; filterNodeRef := filterNodeRef r;
     reverbImpulseRef := reverbImpulseRef r; mediaRecorderRef := mediaRecorderRef r;
     recordedChunksRef := recordedChunksRef r |}.

Definition setReverbNodeRef (v : option NodeId) (r : Refs) : Refs :=
  {| sourceNodeRef := sourceNodeRef r; gainNodeRef := gainNodeRef r; reverbNodeRef := v;
     delayNodeRef := delayNodeRef r; filterNodeRef := filterNodeRef r;
     reverbImpulseRef := reverbImpulseRef r; mediaRecorderRef := mediaRecorderRef r;
     recordedChunksRef := recordedChunksRef r |}.

Definition setDelayNodeRef (v : option NodeId) (r : Refs) : Refs :=
  {| sourceNodeRef := sourceNodeRef r; gainNodeRef := gainNodeRef r;
     reverbNodeRef := reverbNodeRef r; delayNodeRef := v; filterNodeRef := filterNodeRef r;
     reverbImpulseRef := reverbImpulseRef r; mediaRecorderRef := mediaRecorderRef r;
     recordedChunksRef := recordedChunksRef r |}.

Definition setFilterNodeRef (v : option NodeId) (r : Refs) : Refs :=
  {| sourceNodeRef := sourceNodeRef r; gainNodeRef := gainNodeRef r;
     reverbNodeRef := reverbNodeRef r; delayNodeRef := delayNodeRef r; filterNodeRef := v;
     reverbImpulseRef := reverbImpulseRef r; mediaRecorderRef := mediaRecorderRef r;
     recordedChunksRef := recordedChunksRef r |}.

Definition setRecorder (m : option RecordingState) (chunks : list BlobPart) (r : Refs) : Refs :=
  {| sourceNodeRef := sourceNodeRef r; gainNodeRef := gainNodeRef r;
     reverbNodeRef := reverbNodeRef r; delayNodeRef := delayNodeRef r;
     filterNodeRef := filterNodeRef r; reverbImpulseRef := reverbImpulseRef r;
     mediaRecorderRef := m; recordedChunksRef := chunks |}.

(** *** Track-level updates *)

Definition withState (f : State -> State) (t : Track) : Track :=
  {| props := props t; st := f (st t); refs := refs t; audioContext := audioContext t;
     console := console t |}.

Definition withRefs (f : Refs -> Refs) (t : Track) : Track :=
  {| props := props t; st := st t; refs := f (refs t); audioContext := audioContext t;
     console := console t |}.

Definition withContext (f : AudioContext -> AudioContext) (t : Track) : Track :=
  {| props := props t; st := st t; refs := refs t;
     audioContext := option_map f (audioContext t); console := console t |}.

(** [console.error] and [console.warn]: the log grows at its end. *)
Definition log (msg : string) (t : Track) : Track :=
  {| props := props t; st := st t; refs := refs t; audioContext := audioContext t;
     console := console t ++ [msg] |}.

(** An assignment to, or a method call on, a node of the track's context. *)
Definition onNode (id : NodeId) (f : AudioNode -> AudioNode) (t : Track) : Track :=
  withContext (fun c => snd (runState (setNode id f) c)) t.

(** *** setupAudioNodes

    The body runs on the context and the refs together. *)

Definition Wiring : Type := AudioContext * Refs.

Definition onCtx {A} (m : StateMonad.state AudioContext A) : StateMonad.state Wiring A :=
  mkState (fun w => let '(a, c) := runState m (fst w) in (a, (c, snd w))).

Definition onRefs (f : Refs -> Refs) : StateMonad.state Wiring unit :=
  mkState (fun w => (tt, (fst w, f (snd w)))).

Definition readRefs : StateMonad.state Wiring Refs :=
  mkState (fun w => (snd w, w)).

Definition skip : StateMonad.state Wiring unit := ret tt.

(** The [try] block of [setupAudioNodes], entered once the context [p]'s
    track holds a buffer [buf]; returns the new source node. *)
Definition wire (p : Props) (s : State) (buf : AudioBuffer) : StateMonad.state Wiring NodeId :=
  (* Clean up previous nodes *)
  r <- readRefs ;;
  match sourceNodeRef r with
  | Some old => onCtx (disconnect old)
  | None => skip
  end ;;
  (* Create nodes *)
  sourceNode <- onCtx createBufferSource ;;
  onCtx (setNode sourceNode (set_buffer buf)) ;;
  onCtx (setNode sourceNode (set_loop true)) ;;
  gainNode <- onCtx createGain ;;
  onRefs (setGainNodeRef (Some gainNode)) ;;
  filterNode <- onCtx createBiquadFilter ;;
  onCtx (setNode filterNode (set_type "lowpass")) ;;
  onCtx (setNode filterNode (set_frequency (filterFreq s))) ;;
  onRefs (setFilterNodeRef (Some filterNode)) ;;
  delayNode <- onCtx (createDelay 5) ;;
  onCtx (setNode delayNode (set_delayTime (delayAmount s))) ;;
  onRefs (setDelayNodeRef (Some delayNode)) ;;
  delayGainNode <- onCtx createGain ;;
  onCtx (setNode delayGainNode (set_gain (if JS.gt (delayAmount s) 0 then 1 # 2 else 0))) ;;
  r <- readRefs ;;
  reverbNode <-
    match reverbImpulseRef r, JS.gt (reverbAmount s) 0 with
    | Some impulse, true =>
        n <- onCtx createConvolver ;;
        onCtx (setNode n (set_buffer impulse)) ;;
        onRefs (setReverbNodeRef (Some n)) ;;
        ret (Some n)
    | _, _ => ret None
    end ;;
  reverbGainNode <- onCtx createGain ;;
  onCtx (setNode reverbGainNode (set_gain (reverbAmount s))) ;;
  dryGainNode <- onCtx createGain ;;
  onCtx (setNode dryGainNode (set_gain (1 - JS.Math_max (reverbAmount s) 0))) ;;
  (* Connect nodes *)
  onCtx (connect sourceNode (ToNode filterNode)) ;;
  onCtx (connect filterNode (ToNode gainNode)) ;;
  (* Delay effect path *)
  (if JS.gt (delayAmount s) 0 then
     onCtx (connect filterNode (ToNode delayNode)) ;;
     onCtx (connect delayNode (ToNode delayGainNode)) ;;
     onCtx (connect delayGainNode (ToNode gainNode))
   else skip) ;;
  (* Reverb effect path *)
  match reverbNode, JS.gt (reverbAmount s) 0 with
  | Some reverbNode, true =>
      onCtx (connect filterNode (ToNode reverbNode)) ;;
      onCtx (connect reverbNode (ToNode reverbGainNode)) ;;
      onCtx (connect reverbGainNode (ToNode gainNode))
  | _, _ => skip
  end ;;
  (* Connect to main output *)
  onCtx (connect gainNode ToDestination) ;;
  (* Also connect to the recording destination if available *)
  (if destinationNode p then onCtx (connect gainNode ToMediaStreamDestination) else skip) ;;
  onRefs (setSourceNodeRef (Some sourceNode)) ;;
  ret sourceNode.

(** [s] is the render's state the closure captured; [t] carries the refs
    and the context.  [None] is the [null] result. *)
Definition setupAudioNodes (s : State) (t : Track) : option NodeId * Track :=
  match audioContext t, audioBuffer s with
  | Some c, Some buf =>
      let '(sourceNode, (c', r')) := runState (wire (props t) s buf) (c, refs t) in
      (Some sourceNode,
       {| props := props t; st := st t; refs := r'; audioContext := Some c';
          console := console t |})
  | _, _ => (None, t)
  end.

Definition stopAudio (t : Track) : Track :=
  let t :=
    match sourceNodeRef (refs t) with
    | Some src =>
        (* stop() may throw when already stopped; the error is ignored *)
        let t := onNode src stop t in
        withRefs (setSourceNodeRef None) t
    | None => t
    end in
  withState (setTrackPlaying false) t.

Definition playAudio (s : State) (t : Track) : Track :=
  match audioContext t, audioBuffer s with
  | Some c, Some _ =>
      (* Resume AudioContext if it's suspended *)
      let t := match state c with
               | Suspended => withContext resume t
               | Running => t
               end in
      let t := stopAudio t in
      let '(sourceNode, t) := setupAudioNodes s t in
      match sourceNode with
      | None => t
      | Some sourceNode =>
          (* Set loop points *)
          let t := onNode sourceNode (set_loopStart (loopStart s)) t in
          let t := onNode sourceNode (set_loopEnd (loopEnd s)) t in
          (* Start playback *)
          let t := onNode sourceNode (start 0 (loopStart s)) t in
          withState (setTrackPlaying true) t
      end
  | _, _ => t
  end.

Definition handleTrackPlay (t : Track) : Track :=
  match audioBuffer (st t), audioContext t with
  | Some _, Some _ => playAudio (st t) t
  | _, _ => t
  end.

Definition handleTrackStop (t : Track) : Track := stopAudio t.

(** *** Loading a clip from a file

    [handleFileUpload] starts the reader; the reader later fires [onload]
    (which awaits the decode) or [onerror]. *)

Definition handleFileUpload (file : option ArrayBuffer) (t : Track) : Track :=
  match file, audioContext t with
  | Some _, Some _ => withState (setIsLoading true) t
  | _, _ => t
  end.

Definition reader_onload (decodeAudioData : ArrayBuffer -> DecodeResult)
  (arrayBuffer : ArrayBuffer) (t : Track) : Track :=
  let t :=
    match decodeAudioData arrayBuffer with
    | Decoded decodedBuffer =>
        let t := withState (setAudioBuffer (Some decodedBuffer)) t in
        withState (setLoopEnd (duration decodedBuffer)) t
    | DecodeError _ => log "Error decoding audio data:" t
    end in
  (* finally *)
  withState (setIsLoading false) t.

Definition reader_onerror (t : Track) : Track :=
  let t := log "Error reading file" t in
  withState (setIsLoading false) t.

(** *** Recording into the track

    [stream] is the outcome of [getUserMedia]: [false] when it rejects. *)

Definition startRecording (stream : bool) (t : Track) : Track :=
  match audioContext t with
  | None => t
  | Some _ =>
      if stream then
        let t := withRefs (setRecorder (Some recording) []) t in
        withState (setIsRecording true) t
      else log "Error starting recording:" t
  end.

Definition mediaRecorder_ondataavailable (data : BlobPart) (t : Track) : Track :=
  if Nat.ltb 0 (size data)
  then withRefs (fun r => setRecorder (mediaRecorderRef r) (recordedChunksRef r ++ [data]) r) t
  else t.

Definition mediaRecorder_onstop (decodeAudioData : ArrayBuffer -> DecodeResult)
  (t : Track) : Track :=
  match recordedChunksRef (refs t) with
  | [] => log "No data recorded" t
  | chunks =>
      let blob := {| parts := chunks; type := "audio/webm" |} in
      match decodeAudioData (arrayBuffer blob) with
      | Decoded decodedBuffer =>
          let t := withState (setAudioBuffer (Some decodedBuffer)) t in
          withState (setLoopEnd (duration decodedBuffer)) t
      | DecodeError _ => log "Error decoding recorded audio:" t
      end
  end.

Definition stopRecording (t : Track) : Track :=
  match mediaRecorderRef (refs t), isRecording (st t) with
  | Some _, true =>
      let t := withRefs (fun r => setRecorder (Some inactive) (recordedChunksRef r) r) t in
      withState (setIsRecording false) t
  | _, _ => t
  end.

(** *** Region changes reported by the waveform *)

Definition handleLoopRegionChange (start end_ : JS.number) (t : Track) : Track :=
  let s := st t in
  let t := withState (setLoopStart start) t in
  let t := withState (setLoopEnd end_) t in
  match trackPlaying s, sourceNodeRef (refs t) with
  | true, Some _ =>
      (* Restart playback with new loop points *)
      playAudio s t
  | _, _ => t
  end.

End AudioTrack.

(** ** One build of the track graph, in closed form

    What a run of [AudioTrack.wire] adds to a context whose next free
    identifier is [n]: the nodes in creation order (listed newest first, as
    the context keeps them) and the connections (newest first).  That the
    code produces exactly these is lemma [wire_run] below. *)

Module TrackGraph.

Import WebAudio AudioTrack.

(** The convolver exists when the impulse response does and reverb is on. *)
Definition reverbOn (s : State) (r : Refs) : bool :=
  match reverbImpulseRef r with
  | Some _ => JS.gt (reverbAmount s) 0
  | None => false
  end.

Definition sourceId (n : NodeId) : NodeId := n.
Definition gainId (n : NodeId) : NodeId := S n.
Definition filterId (n : NodeId) : NodeId := S (S n).
Definition delayId (n : NodeId) : NodeId := S (S (S n)).
Definition delayGainId (n : NodeId) : NodeId := S (S (S (S n))).
Definition convolverId (n : NodeId) : NodeId := S (S (S (S (S n)))).
Definition reverbGainId (s : State) (r : Refs) (n : NodeId) : NodeId :=
  if reverbOn s r then S (convolverId n) else S (delayGainId n).
Definition dryGainId (s : State) (r : Refs) (n : NodeId) : NodeId :=
  S (reverbGainId s r n).

Definition builtNodes (s : State) (r : Refs) (buf : AudioBuffer) (n : NodeId)
  : list (NodeId * AudioNode) :=
  [ (dryGainId s r n, GainNode (1 - JS.Math_max (reverbAmount s) 0));
    (reverbGainId s r n, GainNode (reverbAmount s)) ] ++
  match reverbImpulseRef r, JS.gt (reverbAmount s) 0 with
  | Some impulse, true => [ (convolverId n, ConvolverNode (Some impulse)) ]
  | _, _ => []
  end ++
  [ (delayGainId n, GainNode (if JS.gt (delayAmount s) 0 then 1 # 2 else 0));
    (delayId n, DelayNode 5 (delayAmount s));
    (filterId n, BiquadFilterNode "lowpass" (filterFreq s));
    (gainId n, GainNode 1);
    (sourceId n, AudioBufferSourceNode (Some buf) true 0 0 Unscheduled) ].

Definition outputEdges (p : Props) (n : NodeId) : list (NodeId * Output) :=
  (if destinationNode p then [ (gainId n, ToMediaStreamDestination) ] else []) ++
  [ (gainId n, ToDestination) ].

Definition reverbEdges (s : State) (r : Refs) (n : NodeId) : list (NodeId * Output) :=
  [ (reverbGainId s r n, ToNode (gainId n));
    (convolverId n, ToNode (reverbGainId s r n));
    (filterId n, ToNode (convolverId n)) ].

Definition delayEdges (n : NodeId) : list (NodeId * Output) :=
  [ (delayGainId n, ToNode (gainId n));
    (delayId n, ToNode (delayGainId n));
    (filterId n, ToNode (delayId n)) ].

Definition dryEdges (n : NodeId) : list (NodeId * Output) :=
  [ (filterId n, ToNode (gainId n)); (sourceId n, ToNode (filterId n)) ].

Definition builtEdges (p : Props) (s : State) (r : Refs) (n : NodeId)
  : list (NodeId * Output) :=
  outputEdges p n ++
  (if reverbOn s r then reverbEdges s r n else []) ++
  (if JS.gt (delayAmount s) 0 then delayEdges n else []) ++
  dryEdges n.

(** The connections of the context that survive the clean-up. *)
Definition keptEdges (r : Refs) (c : AudioContext) : list (NodeId * Output) :=
  match sourceNodeRef r with
  | Some old => filter (fun e => negb (Nat.eqb (fst e) old)) (connections c)
  | None => connections c
  end.

(** An edge has the node [i] as an end. *)
Definition touches (i : NodeId) (e : NodeId * Output) : Prop :=
  fst e = i \/ snd e = ToNode i.

End TrackGraph.

(** ** components/audio-looper.tsx *)

Module AudioLooper.

Import WebAudio Media.

Record TrackEntry := { id : nat; audioBuffer : option AudioBuffer }.

Record State := {
  tracks : list TrackEntry;
  masterTempo : JS.number;
  isPlaying : bool;
  isRecording : bool;
  recordingTime : nat;
  recordedBlob : option Blob
}.

Record Refs := {
  audioContextRef : option AudioContext;
  mediaRecorderRef : option RecordingState;
  recordedChunksRef : list BlobPart;
  recordingTimerRef : option nat;      (* the interval's handle *)
  destinationRef : bool                (* [true] when not null *)
}.

Record Session := { st : State; refs : Refs; console : list string }.

Definition initial : Session :=
  {| st := {| tracks := [ {| id := 1; audioBuffer := None |} ]; masterTempo := 120;
              isPlaying := false; isRecording := false; recordingTime := 0;
              recordedBlob := None |};
     refs := {| audioContextRef := None; mediaRecorderRef := None; recordedChunksRef := [];
                recordingTimerRef := None; destinationRef := false |};
     console := [] |}.

Definition setTracks (v : list TrackEntry) (s : State) : State :=
  {| tracks := v; masterTempo := masterTempo s; isPlaying := isPlaying s;
     isRecording := isRecording s; recordingTime := recordingTime s;
     recordedBlob := recordedBlob s |}.

Definition setIsPlaying (v : bool) (s : State) : State :=
  {| tracks := tracks s; masterTempo := masterTempo s; isPlaying := v;
     isRecording := isRecording s; recordingTime := recordingTime s;
     recordedBlob := recordedBlob s |}.

Definition setIsRecording (v : bool) (s : State) : State :=
  {| tracks := tracks s; masterTempo := masterTempo s; isPlaying := isPlaying s;
     isRecording := v; recordingTime := recordingTime s; recordedBlob := recordedBlob s |}.

Definition setRecordingTime (v : nat) (s : State) : State :=
  {| tracks := tracks s; masterTempo := masterTempo s; isPlaying := isPlaying s;
     isRecording := isRecording s; recordingTime := v; recordedBlob := recordedBlob s |}.

Definition setRecordedBlob (v : option Blob) (s : State) : State :=
  {| tracks := tracks s; masterTempo := masterTempo s; isPlaying := isPlaying s;
     isRecording := isRecording s; recordingTime := recordingTime s; recordedBlob := v |}.

Definition setAudioContextRef (c : option AudioContext) (d : bool) (r : Refs) : Refs :=
  {| audioContextRef := c; mediaRecorderRef := mediaRecorderRef r;
     recordedChunksRef := recordedChunksRef r; recordingTimerRef := recordingTimerRef r;
     destinationRef := d |}.

Definition setMediaRecorderRef (v : option RecordingState) (r : Refs) : Refs :=
  {| audioContextRef := audioContextRef r; mediaRecorderRef := v;
     recordedChunksRef := recordedChunksRef r; recordingTimerRef := recordingTimerRef r;
     destinationRef := destinationRef r |}.

Definition setRecordedChunksRef (v : list BlobPart) (r : Refs) : Refs :=
  {| audioContextRef := audioContextRef r; mediaRecorderRef := mediaRecorderRef r;
     recordedChunksRef := v; recordingTimerRef := recordingTimerRef r;
     destinationRef := destinationRef r |}.

Definition setRecordingTimerRef (v : option nat) (r : Refs) : Refs :=
  {| audioContextRef := audioContextRef r; mediaRecorderRef := mediaRecorderRef r;
     recordedChunksRef := recordedChunksRef r; recordingTimerRef := v;
     destinationRef := destinationRef r |}.

Definition withState (f : State -> State) (m : Session) : Session :=
  {| st := f (st m); refs := refs m; console := console m |}.

Definition withRefs (f : Refs -> Refs) (m : Session) : Session :=
  {| st := st m; refs := f (refs m); console := console m |}.

Definition log (msg : string) (m : Session) : Session :=
  {| st := st m; refs := refs m; console := console m ++ [msg] |}.

(** The context is created on the first click or touch; [supported] tells
    whether the constructor succeeds. *)
Definition initAudioContext (supported : bool) (m : Session) : Session :=
  match audioContextRef (refs m) with
  | Some _ => m
  | None =>
      if supported then withRefs (setAudioContextRef (Some newAudioContext) true) m
      else log "Failed to initialize AudioContext:" m
  end.

(** [now] is the value of [Date.now()]. *)
Definition addTrack (now : nat) (m : Session) : Session :=
  if Nat.ltb (List.length (tracks (st m))) 16
  then withState (setTracks (tracks (st m) ++ [ {| id := now; audioBuffer := None |} ])) m
  else m.

Definition resumeIfSuspended (m : Session) : Session :=
  match audioContextRef (refs m) with
  | Some c =>
      match state c with
      | Suspended =>
          withRefs (fun r => setAudioContextRef (Some (resume c)) (destinationRef r) r) m
      | Running => m
      end
  | None => m
  end.

Definition handleMasterPlay (m : Session) : Session :=
  let m := resumeIfSuspended m in
  withState (setIsPlaying true) m.

Definition handleMasterStop (m : Session) : Session :=
  withState (setIsPlaying false) m.

(** [recorderOk] tells whether [new MediaRecorder(...)] and [start()]
    succeed; [timer] is the handle [setInterval] returns. *)
Definition startMasterRecording (recorderOk : bool) (timer : nat) (m : Session) : Session :=
  match audioContextRef (refs m), destinationRef (refs m), isRecording (st m) with
  | Some _, true, false =>
      let s := st m in
      let m := resumeIfSuspended m in
      (* Reset recording state *)
      let m := withRefs (setRecordedChunksRef []) m in
      let m := withState (setRecordingTime 0) m in
      let m := withState (setRecordedBlob None) m in
      if recorderOk then
        let m := withRefs (setMediaRecorderRef (Some recording)) m in
        let m := withState (setIsRecording true) m in
        (* Start playback if not already playing *)
        let m := if negb (isPlaying s) then withState (setIsPlaying true) m else m in
        (* Start timer *)
        withRefs (setRecordingTimerRef (Some timer)) m
      else log "Error starting master recording:" m
  | _, _, _ => m
  end.

(** The interval's callback. *)
Definition timer_tick (m : Session) : Session :=
  withState (fun s => setRecordingTime (recordingTime s + 1) s) m.

Definition mediaRecorder_ondataavailable (data : BlobPart) (m : Session) : Session :=
  if Nat.ltb 0 (size data)
  then withRefs (fun r => setRecordedChunksRef (recordedChunksRef r ++ [data]) r) m
  else m.

Definition mediaRecorder_onstop (m : Session) : Session :=
  match recordedChunksRef (refs m) with
  | [] => log "No data recorded" m
  | chunks =>
      let blob := {| parts := chunks; type := "audio/webm" |} in
      let m := withState (setRecordedBlob (Some blob)) m in
      match recordingTimerRef (refs m) with
      | Some _ => withRefs (setRecordingTimerRef None) m
      | None => m
      end
  end.

Definition stopMasterRecording (m : Session) : Session :=
  match mediaRecorderRef (refs m), isRecording (st m) with
  | Some rec, true =>
      match rec with
      | recording =>
          let m := withRefs (setMediaRecorderRef (Some inactive)) m in
          let m := withState (setIsRecording false) m in
          match recordingTimerRef (refs m) with
          | Some _ => withRefs (setRecordingTimerRef None) m
          | None => m
          end
      | inactive =>
          (* stop() throws on an inactive recorder *)
          let m := log "Error stopping master recording:" m in
          withState (setIsRecording false) m
      end
  | _, _ => m
  end.

(** The session's events, as the platform delivers them. *)
Inductive Event :=
| InitAudioContext (supported : bool)
| AddTrack (now : nat)
| MasterPlay
| MasterStop
| StartRecording (recorderOk : bool) (timer : nat)
| StopRecording
| DataAvailable (data : BlobPart)
| RecorderStopped
| Tick.

Definition dispatch (m : Session) (ev : Event) : Session :=
  match ev with
  | InitAudioContext ok => initAudioContext ok m
  | AddTrack now => addTrack now m
  | MasterPlay => handleMasterPlay m
  | MasterStop => handleMasterStop m
  | StartRecording ok timer => startMasterRecording ok timer m
  | StopRecording => stopMasterRecording m
  | DataAvailable data => mediaRecorder_ondataavailable data m
  | RecorderStopped => mediaRecorder_onstop m
  | Tick => timer_tick m
  end.

Definition run (m : Session) (evs : list Event) : Session := fold_left dispatch evs m.

End AudioLooper.

(** ** Concrete tracks and sessions used in examples *)

Module Scenario.

Import WebAudio Media.

Definition clip4 : AudioBuffer := {| duration := 4; channelData := [0; 1 # 2; 0; -(1 # 2)] |}.
Definition clip2 : AudioBuffer := {| duration := 2; channelData := [1 # 4; -(1 # 4)] |}.

(** A freshly mounted track of a session whose context exists. *)
Definition emptyTrack : AudioTrack.Track :=
  {| AudioTrack.props := {| AudioTrack.trackId := 1; AudioTrack.masterTempo := 120;
                            AudioTrack.isPlaying := false;
                            AudioTrack.destinationNode := true |};
     AudioTrack.st := AudioTrack.initialState;
     AudioTrack.refs := AudioTrack.initialRefs;
     AudioTrack.audioContext := Some newAudioContext;
     AudioTrack.console := [] |}.

(** The same track holding the 4-second clip with the region [[lo, hi]]. *)
Definition trackWithRegion (lo hi : JS.number) : AudioTrack.Track :=
  AudioTrack.withState
    (fun s => AudioTrack.setLoopStart lo
                (AudioTrack.setLoopEnd hi (AudioTrack.setAudioBuffer (Some clip4) s)))
    emptyTrack.

(** Decoders: one that yields the 2-second clip, one that rejects. *)
Definition decodesToClip2 : ArrayBuffer -> DecodeResult := fun _ => Decoded clip2.
Definition rejects : ArrayBuffer -> DecodeResult := fun _ => DecodeError "EncodingError".

(** The tempo knob of a track ([min = 60], [max = 200], [step = 1]),
    grabbed at 120 BPM. *)
Definition tempoKnob : Knob.Props :=
  {| Knob.value := 120; Knob.min := 60; Knob.max := 200; Knob.step := 1 |}.
Definition grabbed : Knob.State :=
  {| Knob.isDragging := true; Knob.startY := 300; Knob.startX := 40;
     Knob.startValue := 120 |}.

(** A session that already holds 16 tracks. *)
Definition fullSession : AudioLooper.Session :=
  AudioLooper.run AudioLooper.initial (map AudioLooper.AddTrack (seq 2 15)).

(** A session after the first click: the context and the recording bus
    exist, nothing is being recorded, an earlier take is still held. *)
Definition readySession : AudioLooper.Session :=
  AudioLooper.withState
    (AudioLooper.setRecordedBlob (Some {| parts := ["take1"%string]; type := "audio/webm" |}))
    (AudioLooper.initAudioContext true AudioLooper.initial).

End Scenario.

(** ** Invariants of the session's recorder *)

Module SessionInvariant.

Import WebAudio Media AudioLooper.


(** A chunk the recorder keeps. *)
Definition nonEmpty (data : BlobPart) : bool := Nat.ltb 0 (size data).

End SessionInvariant.

(** ** What happens during a master take *)

Module Take.

Import Media AudioLooper.

(** The events the platform delivers between start and stop. *)
Definition duringTake (ev : Event) : bool :=
  match ev with
  | DataAvailable _ | Tick => true
  | _ => false
  end.

Fixpoint dataOf (evs : list Event) : list BlobPart :=
  match evs with
  | [] => []
  | DataAvailable data :: rest => data :: dataOf rest
  | _ :: rest => dataOf rest
  end.

Fixpoint ticksOf (evs : list Event) : nat :=
  match evs with
  | [] => 0
  | Tick :: rest => S (ticksOf rest)
  | _ :: rest => ticksOf rest
  end.

End Take.

(** ** The knob's indicator (components/knob.tsx, render part) *)

Module KnobView.

Import Knob.

(** Normalize value to 0-1 range. *)
Definition normalizedValue (p : Props) : JS.number :=
  (value p - min p) / (max p - min p).

(** Convert to degrees (0-270 degrees rotation). *)
Definition degrees (p : Props) : JS.number :=
  normalizedValue p * 270 - 135.


End KnobView.

(** ** The waveform's drawing (components/waveform-display.tsx, draw effect)

    The numbers the draw effect computes before it strokes: the per-column
    extrema of channel 0 and the pixel bounds of the loop region. *)

Module WaveformView.

Import WaveformDisplay.

(** The values [i = 0, 1, ...] of the outer loop, [i < rect.width]. *)
Definition columns (width : JS.number) : nat := Z.to_nat (Qceiling width).

(** [Math.ceil(data.length / rect.width)] *)
Definition step (data : list JS.number) (width : JS.number) : nat :=
  Z.to_nat (Qceiling (inject_Z (Z.of_nat (List.length data)) / width)).

(** The inner loop over [j], from the sample [index] on, [count] rounds
    left, with the running [min] and [max]. *)
Fixpoint scan (data : list JS.number) (index count : nat) (min max : JS.number)
  : JS.number * JS.number :=
  match count with
  | O => (min, max)
  | S count' =>
      match nth_error data index with
      | Some datum =>
          let min := if JS.lt datum min then datum else min in
          let max := if JS.gt datum max then datum else max in
          scan data (S index) count' min max
      | None => scan data (S index) count' min max
      end
  end.

(** Column [i]: [min] starts at 1.0, [max] at -1.0. *)
Definition column (data : list JS.number) (step i : nat) : JS.number * JS.number :=
  scan data (i * step) step 1 (-(1)).

Definition envelope (data : list JS.number) (width : JS.number)
  : list (JS.number * JS.number) :=
  map (column data (step data width)) (seq 0 (columns width)).

(** The vertical stroke of a column: from [(1 + min) * amp] to
    [(1 + max) * amp], with [amp = rect.height / 2]. *)
Definition stroke (height : JS.number) (extrema : JS.number * JS.number)
  : JS.number * JS.number :=
  let amp := height / 2 in
  ((1 + fst extrema) * amp, (1 + snd extrema) * amp).


(** No press among the events. *)
Definition isPress (ev : Event) : bool :=
  match ev with
  | MouseDown _ | TouchStart _ => true
  | _ => false
  end.

End WaveformView.

(** ** Further concrete inputs used in examples *)

Module Examples.

(** Five samples of channel 0. *)
Definition fiveSamples : list JS.number := [0; 1 # 2; -(1 # 4); 1 # 8; 3 # 4].

End Examples.

(** ** The track's playback effect and its events

    [useEffect(() => { if (isPlaying && audioBuffer && audioContext)
    playAudio() else if (!isPlaying) stopAudio(); return () => stopAudio() },
    [isPlaying, audioBuffer, loopStart, loopEnd, reverbAmount, delayAmount,
    filterFreq])].  After a render in which one of the dependencies changed,
    React runs the clean-up of the previous run and then the body. *)

Module AudioTrackEffects.

Import WebAudio Media AudioTrack.

Definition rerunPlaybackEffect (t : Track) : Track :=
  let s := st t in
  (* clean-up of the previous run *)
  let t := stopAudio t in
  (* body *)
  match isPlaying (props t), audioBuffer s, audioContext t with
  | true, Some _, Some _ => playAudio s t
  | true, _, _ => t
  | false, _, _ => stopAudio t
  end.

(** The master transport flips the [isPlaying] prop. *)
Definition setMasterPlaying (v : bool) (t : Track) : Track :=
  {| props := {| trackId := trackId (props t); masterTempo := masterTempo (props t);
                 isPlaying := v; destinationNode := destinationNode (props t) |};
     st := st t; refs := refs t; audioContext := audioContext t; console := console t |}.

Definition setReverbAmount (v : JS.number) (s : State) : State :=
  {| audioBuffer := audioBuffer s; isLoading := isLoading s; trackPlaying := trackPlaying s;
     syncToMaster := syncToMaster s; loopStart := loopStart s; loopEnd := loopEnd s;
     trackTempo := trackTempo s; reverbAmount := v; delayAmount := delayAmount s;
     filterFreq := filterFreq s; isRecording := isRecording s |}.

Definition setDelayAmount (v : JS.number) (s : State) : State :=
  {| audioBuffer := audioBuffer s; isLoading := isLoading s; trackPlaying := trackPlaying s;
     syncToMaster := syncToMaster s; loopStart := loopStart s; loopEnd := loopEnd s;
     trackTempo := trackTempo s; reverbAmount := reverbAmount s; delayAmount := v;
     filterFreq := filterFreq s; isRecording := isRecording s |}.

Definition setFilterFreq (v : JS.number) (s : State) : State :=
  {| audioBuffer := audioBuffer s; isLoading := isLoading s; trackPlaying := trackPlaying s;
     syncToMaster := syncToMaster s; loopStart := loopStart s; loopEnd := loopEnd s;
     trackTempo := trackTempo s; reverbAmount := reverbAmount s; delayAmount := delayAmount s;
     filterFreq := v; isRecording := isRecording s |}.

(** The render after a handler: the effect re-runs when [changed] says a
    dependency has a new value. *)
Definition render (changed : bool) (t : Track) : Track :=
  if changed then rerunPlaybackEffect t else t.

(** What can happen to a mounted track. *)
Inductive Event :=
| FileUpload (file : option ArrayBuffer)
| ReaderLoad (bytes : ArrayBuffer)
| ReaderError
| TrackPlay
| TrackStop
| RecordStart (stream : bool)
| RecordData (data : BlobPart)
| RecordStop
| RecorderStopped
| RegionChange (start end_ : JS.number)
| ReverbKnob (v : JS.number)
| DelayKnob (v : JS.number)
| FilterKnob (v : JS.number)
| MasterTransport (isPlaying : bool).

(** A decoded clip is a new object, so it always counts as a change. *)
Definition decoded (r : DecodeResult) : bool :=
  match r with Decoded _ => true | DecodeError _ => false end.

Definition dispatch (decodeAudioData : ArrayBuffer -> DecodeResult) (t : Track) (ev : Event)
  : Track :=
  match ev with
  | FileUpload file => handleFileUpload file t
  | ReaderLoad bytes =>
      render (decoded (decodeAudioData bytes)) (reader_onload decodeAudioData bytes t)
  | ReaderError => reader_onerror t
  | TrackPlay => handleTrackPlay t
  | TrackStop => handleTrackStop t
  | RecordStart stream => startRecording stream t
  | RecordData data => mediaRecorder_ondataavailable data t
  | RecordStop => stopRecording t
  | RecorderStopped =>
      let changed :=
        match recordedChunksRef (refs t) with
        | [] => false
        | chunks =>
            decoded (decodeAudioData (arrayBuffer {| parts := chunks; type := "audio/webm" |}))
        end in
      render changed (mediaRecorder_onstop decodeAudioData t)
  | RegionChange start end_ =>
      let changed := JS.neq (loopStart (st t)) start || JS.neq (loopEnd (st t)) end_ in
      render changed (handleLoopRegionChange start end_ t)
  | ReverbKnob v =>
      render (JS.neq (reverbAmount (st t)) v) (withState (setReverbAmount v) t)
  | DelayKnob v =>
      render (JS.neq (delayAmount (st t)) v) (withState (setDelayAmount v) t)
  | FilterKnob v =>
      render (JS.neq (filterFreq (st t)) v) (withState (setFilterFreq v) t)
  | MasterTransport v =>
      render (negb (Bool.eqb (isPlaying (props t)) v)) (setMasterPlaying v t)
  end.

Definition run (decodeAudioData : ArrayBuffer -> DecodeResult) (t : Track)
  (evs : list Event) : Track :=
  fold_left (dispatch decodeAudioData) evs t.



End AudioTrackEffects.

(** ** The refs after one build *)

Module TrackBuild.

Import WebAudio AudioTrack TrackGraph.

(** What a run of [AudioTrack.wire] leaves in the refs. *)
Definition builtRefs (s : State) (r : Refs) (n : NodeId) : Refs :=
  {| sourceNodeRef := Some (sourceId n);
     gainNodeRef := Some (gainId n);
     reverbNodeRef := if reverbOn s r then Some (convolverId n) else reverbNodeRef r;
     delayNodeRef := Some (delayId n);
     filterNodeRef := Some (filterId n);
     reverbImpulseRef := reverbImpulseRef r;
     mediaRecorderRef := mediaRecorderRef r;
     recordedChunksRef := recordedChunksRef r |}.

(** The context after the build. *)
Definition builtContext (p : Props) (s : State) (r : Refs) (buf : AudioBuffer)
  (c : AudioContext) : AudioContext :=
  {| state := state c;
     nextId := S (dryGainId s r (nextId c));
     nodes := builtNodes s r buf (nextId c) ++ nodes c;
     connections := builtEdges p s r (nextId c) ++ keptEdges r c |}.

(** The context [stopAudio] leaves: the referenced source, if any,
    stopped. *)
Definition stoppedContext (r : Refs) (c : AudioContext) : AudioContext :=
  match sourceNodeRef r with
  | Some src =>
      {| state := state c; nextId := nextId c; nodes := update src stop (nodes c);
         connections := connections c |}
  | None => c
  end.

End TrackBuild.

(** ** The session's clock and export (components/audio-looper.tsx) *)

Module AudioLooperView.

Import Media AudioLooper.

(** [n.toString()] for a non-negative integer. *)
Definition toString (n : nat) : string := NilEmpty.string_of_uint (Nat.to_uint n).

(** [s.padStart(targetLength, pad)] for a one-character [pad]. *)
Definition padStart (targetLength : nat) (pad : ascii) (s : string) : string :=
  String.append
    (string_of_list_ascii (repeat pad (targetLength - String.length s))) s.

(** Format recording time as MM:SS. *)
Definition formatTime (seconds : nat) : string :=
  let mins := (seconds / 60)%nat in
  let secs := (seconds mod 60)%nat in
  String.append (padStart 2 "0" (toString mins))
    (String.append ":" (padStart 2 "0" (toString secs))).

(** [s.replace(/:/g, "-")] *)
Fixpoint replaceColons (s : string) : string :=
  match s with
  | EmptyString => EmptyString
  | String c rest => String (if Ascii.eqb c ":" then "-"%char else c) (replaceColons rest)
  end.

(** The download's name; [iso] is [new Date().toISOString()]. *)
Definition fileName (iso : string) : string :=
  String.append "audio-looper-recording-"
    (String.append (replaceColons (substring 0 19 iso)) ".webm").

(** [Some (name, blob)] is the download offered; [None] the early return. *)
Definition downloadRecording (iso : string) (m : Session) : option (string * Blob) :=
  match recordedBlob (st m) with
  | None => None
  | Some blob => Some (fileName iso, blob)
  end.

(** Reading a clock display back (for the round trip below): the text
    before the first colon and the text after it, as decimal numbers. *)
Fixpoint splitAtColon (s : string) : option (string * string) :=
  match s with
  | EmptyString => None
  | String c rest =>
      if Ascii.eqb c ":" then Some (EmptyString, rest)
      else match splitAtColon rest with
           | Some (a, b) => Some (String c a, b)
           | None => None
           end
  end.

Definition parseNat (s : string) : option nat :=
  option_map Nat.of_uint (NilEmpty.uint_of_string s).

Definition parseTime (s : string) : option nat :=
  match splitAtColon s with
  | Some (m, sec) =>
      match parseNat m, parseNat sec with
      | Some mins, Some secs => Some (mins * 60 + secs)%nat
      | _, _ => None
      end
  | None => None
  end.

Fixpoint hasColon (s : string) : bool :=
  match s with
  | EmptyString => false
  | String c rest => Ascii.eqb c ":" || hasColon rest
  end.

End AudioLooperView.

(** * Properties *)

(** ** Numbers *)

Section Numbers.

Lemma JS_lt_spec a b : reflect (a < b) (JS.lt a b).
Proof.
  unfold JS.lt. destruct (Qle_bool b a) eqn:E; constructor.
  - apply Qle_bool_iff in E. lra.
  - apply Qnot_le_lt. intro H. apply Qle_bool_iff in H. congruence.
Qed.

Lemma JS_gt_spec a b : reflect (b < a) (JS.gt a b).
Proof. apply JS_lt_spec. Qed.

Lemma JS_neq_spec a b : reflect (~ a == b) (JS.neq a b).
Proof.
  unfold JS.neq. destruct (Qeq_bool a b) eqn:E; constructor.
  - apply Qeq_bool_iff in E. tauto.
  - intro H. apply Qeq_bool_iff in H. congruence.
Qed.

Lemma Math_max_cases a b :
  (a < b /\ JS.Math_max a b = b) \/ (b <= a /\ JS.Math_max a b = a).
Proof.
  unfold JS.Math_max. destruct (JS_lt_spec a b); [left | right]; split; auto; lra.
Qed.

Lemma Math_min_cases a b :
  (b < a /\ JS.Math_min a b = b) \/ (a <= b /\ JS.Math_min a b = a).
Proof.
  unfold JS.Math_min. destruct (JS_lt_spec b a); [left | right]; split; auto; lra.
Qed.

Lemma Math_abs_cases a :
  (a < 0 /\ JS.Math_abs a = - a) \/ (0 <= a /\ JS.Math_abs a = a).
Proof.
  unfold JS.Math_abs. destruct (JS_lt_spec a 0); [left | right]; split; auto; lra.
Qed.

Lemma Math_abs_Qabs a : JS.Math_abs a == Qabs a.
Proof.
  destruct (Math_abs_cases a) as [[H ->] | [H ->]].
  - rewrite Qabs_neg; lra.
  - rewrite Qabs_pos; lra.
Qed.

Lemma Math_max_Qmax a b : JS.Math_max a b == Qmax a b.
Proof.
  destruct (Math_max_cases a b) as [[H ->] | [H ->]].
  - rewrite Q.max_r; lra.
  - rewrite Q.max_l; lra.
Qed.

Lemma Math_min_Qmin a b : JS.Math_min a b == Qmin a b.
Proof.
  destruct (Math_min_cases a b) as [[H ->] | [H ->]].
  - rewrite Q.min_r; lra.
  - rewrite Q.min_l; lra.
Qed.

(** The integer chosen by [Math.round] is within one half of its argument. *)
Lemma Math_round_near a :
  a - (1 # 2) < JS.Math_round a /\ JS.Math_round a <= a + (1 # 2).
Proof.
  unfold JS.Math_round. split.
  - pose proof (Qlt_floor (a + (1 # 2))) as H.
    rewrite inject_Z_plus in H. change (inject_Z 1) with 1 in H. lra.
  - apply Qfloor_le.
Qed.



(** No integer is closer to [a] than [Math.round a]. *)
Lemma Math_round_nearest a (j : Z) :
  Qabs (JS.Math_round a - a) <= Qabs (inject_Z j - a).
Proof.
  destruct (Math_round_near a) as [Hlo Hhi].
  unfold JS.Math_round in *. set (k := Qfloor (a + (1 # 2))) in *.
  assert (Hk : Qabs (inject_Z k - a) <= 1 # 2) by (apply Qabs_Qle_condition; lra).
  destruct (Z.lt_trichotomy j k) as [Hj | [Hj | Hj]].
  - assert (inject_Z j <= inject_Z k - 1).
    { assert (H : (j + 1 <= k)%Z) by lia. rewrite Zle_Qle in H.
      rewrite inject_Z_plus in H. change (inject_Z 1) with 1 in H. lra. }
    pose proof (Qle_Qabs (- (inject_Z j - a))) as H1. rewrite Qabs_opp in H1. lra.
  - subst j. lra.
  - assert (inject_Z k + 1 <= inject_Z j).
    { assert (H : (k + 1 <= j)%Z) by lia. rewrite Zle_Qle in H.
      rewrite inject_Z_plus in H. change (inject_Z 1) with 1 in H. lra. }
    pose proof (Qle_Qabs (inject_Z j - a)) as H1. lra.
Qed.

End Numbers.

(** ** Knob *)

Section KnobProperties.

Import Knob.

Lemma clamp_agrees lo hi u :
  lo <= hi -> JS.Math_max lo (JS.Math_min hi u) == KnobSpec.clamp u lo hi.
Proof.
  intro Hle. unfold KnobSpec.clamp.
  destruct (Math_min_cases hi u) as [[H1 ->] | [H1 ->]];
    [destruct (Math_max_cases lo u) as [[H2 ->] | [H2 ->]]
    |destruct (Math_max_cases lo hi) as [[H2 ->] | [H2 ->]]];
    destruct (Qlt_le_dec u lo); try destruct (Qlt_le_dec hi u); lra.
Qed.


Lemma round_to_step_nearest s c :
  ~ s == 0 -> KnobSpec.nearest_multiple s c (JS.Math_round (c / s) * s).
Proof.
  intro Hs. split.
  - exists (Qfloor (c / s + (1 # 2))). reflexivity.
  - intro j.
    assert (E1 : JS.Math_round (c / s) * s - c == (JS.Math_round (c / s) - c / s) * s)
      by (field; exact Hs).
    assert (E2 : inject_Z j * s - c == (inject_Z j - c / s) * s) by (field; exact Hs).
    rewrite E1, E2, !Qabs_Qmult.
    apply Qmult_le_compat_r; [apply Math_round_nearest | apply Qabs_nonneg].
Qed.

Lemma nearest_multiple_wd s c c' r :
  c == c' -> KnobSpec.nearest_multiple s c r -> KnobSpec.nearest_multiple s c' r.
Proof.
  intros E [Hk Hj]. split; [exact Hk|].
  intro j. rewrite <- E. apply Hj.
Qed.

(** What both move handlers compute from the unclamped value. *)
Lemma clamp_then_round_contract p sv d :
  min p <= max p ->
  KnobSpec.contract p sv d
    (let newValue := sv - d / sensitivity * (max p - min p) in
     let newValue := JS.Math_max (min p) (JS.Math_min (max p) newValue) in
     if JS.neq (step p) 0 then JS.Math_round (newValue / step p) * step p else newValue).
Proof.
  intro Hle. cbv zeta. unfold KnobSpec.contract, sensitivity.
  set (u := sv - d / 200 * (max p - min p)).
  pose proof (clamp_agrees (min p) (max p) u Hle) as Hc.
  destruct (JS_neq_spec (step p) 0) as [Hs | Hs]; split; intro H.
  - contradiction.
  - eapply nearest_multiple_wd; [exact Hc|]. apply round_to_step_nearest; exact Hs.
  - exact Hc.
  - tauto.
Qed.

Lemma touch_delta_agrees dy dx :
  (if JS.gt (JS.Math_abs dy) (JS.Math_abs dx) then dy else - dx) = KnobSpec.touch_delta dy dx.
Proof.
  unfold KnobSpec.touch_delta.
  pose proof (Math_abs_Qabs dy) as Ey. pose proof (Math_abs_Qabs dx) as Ex.
  destruct (JS_gt_spec (JS.Math_abs dy) (JS.Math_abs dx));
    destruct (Qlt_le_dec (Qabs dx) (Qabs dy)); try reflexivity; lra.
Qed.






(** C5: while the knob is dragged, a mouse move emits the value of the
    specification's contract for the vertical delta, and a touch move emits
    it for the larger-magnitude axis with the horizontal one inverted: the
    start value minus delta/200 of the range, clamped to [[min, max]], then
    replaced by a nearest multiple of [step] unless [step = 0].  With
    [step = 1] a clamped value of 137.6 is emitted as 138. *)
Theorem knob_move_emits_contract_value p st :
  isDragging st = true -> min p <= max p ->
  (forall e, exists v,
      handleMouseMove p st e = Some v /\
      KnobSpec.contract p (startValue st) (clientY e - startY st) v) /\
  (forall touch rest, exists v,
      handleTouchMove p st (touch :: rest) = Some v /\
      KnobSpec.contract p (startValue st)
        (KnobSpec.touch_delta (clientY touch - startY st) (clientX touch - startX st)) v) /\
  (forall e v,
      step p == 1 ->
      KnobSpec.clamp (startValue st - (clientY e - startY st) / 200 * (max p - min p))
        (min p) (max p) == 1376 # 10 ->
      handleMouseMove p st e = Some v -> v == 138).
Proof.
  intros Hdrag Hle. split; [|split].
  - intro e. eexists. split.
    + unfold handleMouseMove. rewrite Hdrag. reflexivity.
    + apply clamp_then_round_contract. exact Hle.
  - intros touch rest. eexists. split.
    + unfold handleTouchMove. rewrite Hdrag, touch_delta_agrees. reflexivity.
    + apply clamp_then_round_contract. exact Hle.
  - intros e v Hs Hc He.
    unfold handleMouseMove in He. rewrite Hdrag in He. cbn [negb] in He.
    injection He as <-. cbv zeta. unfold sensitivity.
    rewrite <- (clamp_agrees _ _ _ Hle) in Hc.
    set (c := JS.Math_max _ _) in *.
    destruct (JS_neq_spec (step p) 0) as [H0 | H0]; [|exfalso; apply H0; intro; lra].
    unfold JS.Math_round.
    assert (E : c / step p + (1 # 2) == 1381 # 10) by (rewrite Hs, Hc; reflexivity).
    rewrite (Qfloor_comp _ _ E), Hs. reflexivity.
Qed.

Lemma knob_move_emits_contract_value_witness :
  exists v,
    handleMouseMove Scenario.tempoKnob Scenario.grabbed
      {| clientX := 40; clientY := 300 - (176 # 7) |} = Some v /\
    v == 138.
Proof.
  eexists. split; [reflexivity|].
  assert (Hle : min Scenario.tempoKnob <= max Scenario.tempoKnob) by discriminate.
  apply (proj2 (proj2
           (knob_move_emits_contract_value Scenario.tempoKnob Scenario.grabbed eq_refl Hle))
           {| clientX := 40; clientY := 300 - (176 # 7) |}).
  - reflexivity.
  - reflexivity.
  - reflexivity.
Defined.

End KnobProperties.

(** ** Waveform region selection *)

Section WaveformProperties.

Import WaveformDisplay.

(** The release handlers, in terms of the recorded drag positions. *)
Lemma release_notification ds de :
  (if JS.gt (JS.Math_abs (ds - de)) (1 # 100)
   then Some (JS.Math_min ds de, JS.Math_max ds de) else None) =
  (if Qlt_le_dec (1 # 100) (Qabs (de - ds))
   then Some (JS.Math_min ds de, JS.Math_max ds de) else None).
Proof.
  assert (E : JS.Math_abs (ds - de) == Qabs (de - ds)).
  { rewrite Math_abs_Qabs, <- Qabs_opp. apply Qabs_wd. ring. }
  destruct (JS_gt_spec (JS.Math_abs (ds - de)) (1 # 100));
    destruct (Qlt_le_dec (1 # 100) (Qabs (de - ds))); try reflexivity; lra.
Qed.



(** Boundary values of the threshold: drags of 0, 0.01 and 0.011 seconds. *)
Example release_boundary_values :
  let st de := {| canvasRef := None; isDragging := true; dragStart := Some 2;
                  dragEnd := Some de; canvasWidth := 400; canvasHeight := 128 |} in
  snd (handleMouseUp (st 2)) = None /\
  snd (handleMouseUp (st (201 # 100))) = None /\
  snd (handleMouseUp (st (2011 # 1000))) = Some (2, 2011 # 1000) /\
  snd (handleMouseUp (st (1989 # 1000))) = Some (1989 # 1000, 2).
Proof. repeat split. Qed.

(** *** Whole gestures: press, moves, release *)





(** X2: a pointer inside the canvas maps to a time inside the clip. *)
Lemma position_within_clip p st rect x :
  canvasRef st = Some rect -> 0 < canvasWidth st -> 0 <= duration p ->
  left rect <= x <= left rect + canvasWidth st ->
  0 <= getPositionFromEvent p st x <= duration p.
Proof.
  intros Hc Hw Hd [Hlo Hhi]. unfold getPositionFromEvent. rewrite Hc.
  set (r := (x - left rect) / canvasWidth st).
  assert (H0 : 0 <= r) by (apply Qle_shift_div_l; lra).
  assert (H1 : r <= 1) by (apply Qle_shift_div_r; lra).
  split.
  - apply Qmult_le_0_compat; assumption.
  - rewrite <- (Qmult_1_l (duration p)) at 2. apply Qmult_le_compat_r; assumption.
Qed.

End WaveformProperties.

(** ** Track: clip and loop region *)

Section TrackRegionProperties.

Import WebAudio Media AudioTrack.

Lemma setupAudioNodes_st s t : st (snd (setupAudioNodes s t)) = st t.
Proof.
  unfold setupAudioNodes.
  destruct (audioContext t) as [c|]; [|reflexivity].
  destruct (audioBuffer s) as [buf|]; [|reflexivity].
  destruct (runState (wire (props t) s buf) (c, refs t)) as [src [c' r']]. reflexivity.
Qed.

Lemma stopAudio_st t : st (stopAudio t) = setTrackPlaying false (st t).
Proof. unfold stopAudio. destruct (sourceNodeRef (refs t)); reflexivity. Qed.

(** Playback only touches the [trackPlaying] cell of the state. *)
Lemma playAudio_st s t :
  st (playAudio s t) = st t \/ exists b, st (playAudio s t) = setTrackPlaying b (st t).
Proof.
  unfold playAudio.
  destruct (audioContext t) as [c|]; [|left; reflexivity].
  destruct (audioBuffer s) as [buf|]; [|left; reflexivity].
  set (t1 := match state c with Suspended => withContext resume t | Running => t end).
  assert (E1 : st t1 = st t) by (unfold t1; destruct (state c); reflexivity).
  pose proof (setupAudioNodes_st s (stopAudio t1)) as E2.
  destruct (setupAudioNodes s (stopAudio t1)) as [[src|] t2]; cbn [snd] in E2; right.
  - exists true. cbn. rewrite E2, stopAudio_st, E1. reflexivity.
  - exists false. rewrite E2, stopAudio_st, E1. reflexivity.
Qed.

Lemma playAudio_region s t :
  loopStart (st (playAudio s t)) = loopStart (st t) /\
  loopEnd (st (playAudio s t)) = loopEnd (st t) /\
  audioBuffer (st (playAudio s t)) = audioBuffer (st t).
Proof. destruct (playAudio_st s t) as [-> | [b ->]]; repeat split. Qed.

(** The region-change handler stores the pair it is given, whatever it is. *)
Lemma handleLoopRegionChange_stores a b t :
  loopStart (st (handleLoopRegionChange a b t)) = a /\
  loopEnd (st (handleLoopRegionChange a b t)) = b /\
  audioBuffer (st (handleLoopRegionChange a b t)) = audioBuffer (st t).
Proof.
  unfold handleLoopRegionChange. cbv zeta.
  destruct (trackPlaying (st t)); [|repeat split].
  destruct (sourceNodeRef _); [|repeat split].
  destruct (playAudio_region (st t)
              (withState (setLoopEnd b) (withState (setLoopStart a) t))) as (-> & -> & ->).
  repeat split.
Qed.

(** C2 (as amended): the region-change handler stores its two arguments
    unchanged; and when the drag positions recorded by the waveform both lie
    in [[0, duration]] of the track's clip, the region a release commits to
    the track satisfies [0 <= start < end <= duration]. *)
Theorem committed_region_within_clip t buf w ds de a b :
  audioBuffer (st t) = Some buf ->
  WaveformDisplay.isDragging w = true ->
  WaveformDisplay.dragStart w = Some ds -> WaveformDisplay.dragEnd w = Some de ->
  0 <= ds <= duration buf -> 0 <= de <= duration buf ->
  snd (WaveformDisplay.handleMouseUp w) = Some (a, b) \/
  snd (WaveformDisplay.handleTouchEnd w) = Some (a, b) ->
  let t' := handleLoopRegionChange a b t in
  loopStart (st t') = a /\ loopEnd (st t') = b /\
  audioBuffer (st t') = Some buf /\
  0 <= loopStart (st t') /\ loopStart (st t') < loopEnd (st t') /\
  loopEnd (st t') <= duration buf.
Proof.
  intros Hbuf Hd Hs He Hds Hde Hup t'.
  destruct (handleLoopRegionChange_stores a b t) as (Ea & Eb & Ec).
  fold t' in Ea, Eb, Ec. rewrite Ea, Eb, Ec.
  assert (Hn : (if Qlt_le_dec (1 # 100) (Qabs (de - ds))
                then Some (JS.Math_min ds de, JS.Math_max ds de) else None) = Some (a, b)).
  { rewrite <- release_notification.
    change (WaveformDisplay.handleTouchEnd w) with (WaveformDisplay.handleMouseUp w) in Hup.
    unfold WaveformDisplay.handleMouseUp in Hup. cbn [snd] in Hup.
    rewrite Hd, Hs, He in Hup. destruct Hup; assumption. }
  destruct (Qlt_le_dec (1 # 100) (Qabs (de - ds))) as [Hgt | Hle]; [|discriminate].
  injection Hn as <- <-.
  repeat split; try assumption.
  - destruct (Math_min_cases ds de) as [[_ ->] | [_ ->]]; lra.
  - rewrite Math_min_Qmin, Math_max_Qmax.
    revert Hgt. apply Qabs_case; intros; destruct (Q.min_spec ds de) as [[? ->] | [? ->]];
      destruct (Q.max_spec ds de) as [[? ->] | [? ->]]; lra.
  - destruct (Math_max_cases ds de) as [[_ ->] | [_ ->]]; lra.
Qed.

Lemma committed_region_within_clip_witness :
  let w := {| WaveformDisplay.canvasRef := None; WaveformDisplay.isDragging := true;
              WaveformDisplay.dragStart := Some 3; WaveformDisplay.dragEnd := Some 1;
              WaveformDisplay.canvasWidth := 400; WaveformDisplay.canvasHeight := 128 |} in
  let t' := handleLoopRegionChange 1 3 (Scenario.trackWithRegion 0 4) in
  snd (WaveformDisplay.handleMouseUp w) = Some (1, 3) /\
  0 <= loopStart (st t') /\ loopStart (st t') < loopEnd (st t') /\ loopEnd (st t') <= 4.
Proof.
  intros w t'. split; [reflexivity|].
  assert (Hds : 0 <= 3 <= duration Scenario.clip4) by (split; discriminate).
  assert (Hde : 0 <= 1 <= duration Scenario.clip4) by (split; discriminate).
  exact (proj2 (proj2 (proj2
    (committed_region_within_clip (Scenario.trackWithRegion 0 4) Scenario.clip4 w 3 1 1 3
       eq_refl eq_refl eq_refl eq_refl Hds Hde (or_introl eq_refl))))).
Defined.

(** C2 as stated fails: the handler stores an inverted, out-of-range pair
    as it is. *)
Lemma region_handler_stores_invalid_pair :
  ~ (forall t buf a b,
       audioBuffer (st t) = Some buf ->
       let t' := handleLoopRegionChange a b t in
       0 <= loopStart (st t') /\ loopStart (st t') < loopEnd (st t') /\
       loopEnd (st t') <= duration buf).
Proof.
  intro H.
  destruct (H (Scenario.trackWithRegion 0 4) Scenario.clip4 5 2 eq_refl) as (_ & Hlt & _).
  vm_compute in Hlt. discriminate.
Qed.

(** *** Loading and decoding *)

(** What a successful decode changes: the clip and the loop end. *)
Lemma reader_onload_success decode bytes buf t :
  decode bytes = Decoded buf ->
  st (reader_onload decode bytes t) =
  setIsLoading false (setLoopEnd (duration buf) (setAudioBuffer (Some buf) (st t))).
Proof. intro E. unfold reader_onload. rewrite E. reflexivity. Qed.

(** C1 at a failing input: a track holding the 4-second clip with region
    [[1, 3]] loads a 2-second clip; the new region is [[1, 2]], the start
    is not reset to 0.  With region [[3, 4]] the result [[3, 2]] is
    inverted.  The record-stop decode behaves the same. *)
Theorem reload_keeps_previous_loop_start :
  let load t := reader_onload Scenario.decodesToClip2 "RIFF"%string
                  (handleFileUpload (Some "RIFF"%string) t) in
  let rec t := mediaRecorder_onstop Scenario.decodesToClip2
                 (mediaRecorder_ondataavailable "webm"%string (startRecording true t)) in
  let region t := (loopStart (st t), loopEnd (st t)) in
  audioBuffer (st (load (Scenario.trackWithRegion 1 3))) = Some Scenario.clip2 /\
  region (load (Scenario.trackWithRegion 1 3)) = (1, 2) /\
  region (load (Scenario.trackWithRegion 3 4)) = (3, 2) /\
  region (rec (Scenario.trackWithRegion 1 3)) = (1, 2) /\
  region (load Scenario.emptyTrack) = (0, 2).
Proof. repeat split. Qed.

(** The start is kept by every successful load. *)
Lemma successful_load_region decode bytes buf t :
  decode bytes = Decoded buf ->
  let t' := reader_onload decode bytes t in
  audioBuffer (st t') = Some buf /\
  loopStart (st t') = loopStart (st t) /\ loopEnd (st t') = duration buf.
Proof. intros E t'. unfold t'. rewrite (reader_onload_success _ _ _ _ E). repeat split. Qed.

(** C7: when the decode of an uploaded file fails, every state cell of the
    track is as before the upload (same clip, possibly none, same loop
    region) except the loading flag, which the upload raised and which is
    cleared; one diagnostic is logged, and refs and audio context are
    untouched. *)
Theorem failed_decode_leaves_track_untouched decode bytes reason t c :
  audioContext t = Some c ->
  decode bytes = DecodeError reason ->
  let t1 := handleFileUpload (Some bytes) t in
  let t2 := reader_onload decode bytes t1 in
  isLoading (st t1) = true /\
  st t2 = setIsLoading false (st t) /\
  audioBuffer (st t2) = audioBuffer (st t) /\
  loopStart (st t2) = loopStart (st t) /\ loopEnd (st t2) = loopEnd (st t) /\
  isLoading (st t2) = false /\
  refs t2 = refs t /\ audioContext t2 = audioContext t /\
  console t2 = console t ++ ["Error decoding audio data:"%string].
Proof.
  intros Hc Hd t1 t2. unfold t2, t1, reader_onload, handleFileUpload.
  rewrite Hc, Hd. cbn. repeat split; assumption.
Qed.

Lemma failed_decode_leaves_track_untouched_witness :
  let t := Scenario.trackWithRegion 1 3 in
  let t2 := reader_onload Scenario.rejects "junk"%string
              (handleFileUpload (Some "junk"%string) t) in
  audioBuffer (st t2) = Some Scenario.clip4 /\
  loopStart (st t2) = 1 /\ loopEnd (st t2) = 3 /\ isLoading (st t2) = false.
Proof.
  intros t t2.
  destruct (failed_decode_leaves_track_untouched Scenario.rejects "junk"%string
              "EncodingError"%string t newAudioContext eq_refl eq_refl)
    as (_ & _ & Hb & Hs & He & Hl & _).
  repeat split; assumption.
Defined.

End TrackRegionProperties.

(** ** Track signal graph *)

Section TrackGraphProperties.

Import WebAudio Media AudioTrack TrackGraph.

(** Symbolic run of the body of [setupAudioNodes]. *)
Lemma wire_run p s buf c r :
  exists r',
    runState (wire p s buf) (c, r) =
    (nextId c,
     ({| state := state c;
         nextId := S (dryGainId s r (nextId c));
         nodes := builtNodes s r buf (nextId c) ++ nodes c;
         connections := builtEdges p s r (nextId c) ++ keptEdges r c |}, r')) /\
    sourceNodeRef r' = Some (nextId c).
Proof.
  unfold wire, builtNodes, builtEdges, keptEdges, outputEdges, reverbEdges, delayEdges,
    dryEdges, dryGainId, reverbGainId, reverbOn, convolverId, delayGainId, delayId,
    filterId, gainId, sourceId.
  destruct c as [cs n ns es], r as [old g rv d f imp mr ch], p as [tid mt pl dst].
  destruct old, imp, dst, (JS.gt (delayAmount s) 0), (JS.gt (reverbAmount s) 0);
    repeat (cbn -[JS.Math_max Qminus]; rewrite ?Nat.eqb_refl);
    eexists; (split; reflexivity).
Qed.

Lemma setupAudioNodes_run s t c buf :
  audioContext t = Some c -> audioBuffer s = Some buf ->
  exists t',
    setupAudioNodes s t = (Some (nextId c), t') /\
    audioContext t' =
      Some {| state := state c;
              nextId := S (dryGainId s (refs t) (nextId c));
              nodes := builtNodes s (refs t) buf (nextId c) ++ nodes c;
              connections := builtEdges (props t) s (refs t) (nextId c) ++
                             keptEdges (refs t) c |}.
Proof.
  intros Hc Hb. unfold setupAudioNodes. rewrite Hc, Hb.
  destruct (wire_run (props t) s buf c (refs t)) as (r' & -> & _).
  eexists. split; reflexivity.
Qed.

Ltac unfold_ids :=
  unfold dryGainId, reverbGainId, convolverId, delayGainId, delayId, filterId, gainId,
    sourceId in *.

(** Splits membership in a literal list into its cases. *)
Ltac in_cases H :=
  repeat (apply in_app_or in H; destruct H as [H | H]);
  cbn [In] in H;
  repeat match type of H with
         | _ \/ _ => destruct H as [H | H]
         | False => destruct H
         end.

Lemma reverbOn_positive s r : reverbOn s r = true -> 0 < reverbAmount s.
Proof.
  unfold reverbOn. destruct (reverbImpulseRef r); [|discriminate].
  destruct (JS_gt_spec (reverbAmount s) 0); [trivial | discriminate].
Qed.

Lemma built_delay_node s r buf n d m dt :
  In (d, DelayNode m dt) (builtNodes s r buf n) -> d = delayId n.
Proof.
  unfold builtNodes. intro H.
  destruct (reverbImpulseRef r), (JS.gt (reverbAmount s) 0);
    in_cases H; try discriminate; injection H as <- _ _; reflexivity.
Qed.

Lemma built_delay_node_exists s r buf n :
  In (delayId n, DelayNode 5 (delayAmount s)) (builtNodes s r buf n).
Proof.
  unfold builtNodes. apply in_or_app. right. apply in_or_app. right.
  cbn. tauto.
Qed.

Lemma built_convolver_node s r buf n v b :
  In (v, ConvolverNode b) (builtNodes s r buf n) -> reverbOn s r = true.
Proof.
  unfold builtNodes, reverbOn. intro H.
  destruct (reverbImpulseRef r), (JS.gt (reverbAmount s) 0);
    in_cases H; try discriminate; reflexivity.
Qed.

Lemma edge_touching_delay p s r n e :
  In e (builtEdges p s r n) -> touches (delayId n) e -> JS.gt (delayAmount s) 0 = true.
Proof.
  unfold builtEdges, outputEdges, reverbEdges, delayEdges, dryEdges, touches.
  intros H Ht.
  destruct (JS.gt (delayAmount s) 0); [reflexivity | exfalso].
  unfold_ids. destruct (destinationNode p), (reverbOn s r);
    in_cases H; subst e; cbn [fst snd] in Ht;
    destruct Ht as [Ht | Ht]; try discriminate; try injection Ht as Ht; lia.
Qed.

Lemma edge_touching_dry_gain p s r n e :
  In e (builtEdges p s r n) -> ~ touches (dryGainId s r n) e.
Proof.
  unfold builtEdges, outputEdges, reverbEdges, delayEdges, dryEdges, touches.
  intros H Ht.
  unfold_ids. destruct (destinationNode p), (reverbOn s r), (JS.gt (delayAmount s) 0);
    in_cases H; subst e; cbn [fst snd] in Ht;
    destruct Ht as [Ht | Ht]; try discriminate; try injection Ht as Ht; lia.
Qed.

(** With both mixes at zero only the dry path and the outputs are wired. *)
Lemma dry_edges_only p s r n :
  delayAmount s == 0 -> reverbAmount s == 0 ->
  builtEdges p s r n = outputEdges p n ++ dryEdges n.
Proof.
  intros Hd Hr. unfold builtEdges, reverbOn.
  destruct (JS_gt_spec (delayAmount s) 0); [lra|].
  destruct (JS_gt_spec (reverbAmount s) 0); [lra|].
  destruct (reverbImpulseRef r); reflexivity.
Qed.

Ltac decide_ids :=
  repeat match goal with
         | |- context [Nat.eqb ?a ?b] => destruct (Nat.eqb_spec a b); try lia
         end.

Lemma lookup_gain s r buf n ns :
  lookup (gainId n) (builtNodes s r buf n ++ ns) = Some (GainNode 1).
Proof.
  unfold builtNodes. unfold_ids. unfold reverbOn.
  destruct (reverbImpulseRef r), (JS.gt (reverbAmount s) 0);
    cbn [lookup app]; decide_ids; reflexivity.
Qed.

Lemma lookup_filter s r buf n ns :
  lookup (filterId n) (builtNodes s r buf n ++ ns) =
  Some (BiquadFilterNode "lowpass" (filterFreq s)).
Proof.
  unfold builtNodes. unfold_ids. unfold reverbOn.
  destruct (reverbImpulseRef r), (JS.gt (reverbAmount s) 0);
    cbn [lookup app]; decide_ids; reflexivity.
Qed.

Lemma lookup_source s r buf n ns :
  lookup (sourceId n) (builtNodes s r buf n ++ ns) =
  Some (AudioBufferSourceNode (Some buf) true 0 0 Unscheduled).
Proof.
  unfold builtNodes. unfold_ids. unfold reverbOn.
  destruct (reverbImpulseRef r), (JS.gt (reverbAmount s) 0);
    cbn [lookup app]; decide_ids; reflexivity.
Qed.

Lemma lookup_dry_gain s r buf n ns :
  lookup (dryGainId s r n) (builtNodes s r buf n ++ ns) =
  Some (GainNode (1 - JS.Math_max (reverbAmount s) 0)).
Proof.
  unfold builtNodes. cbn [lookup app]. rewrite Nat.eqb_refl. reflexivity.
Qed.

(** C3 (as amended): every build of the graph creates a delay node, and a
    convolver only when reverb is positive; a connection made by the build
    touches the delay node only when [delayAmount > 0] and a convolver only
    when [reverbAmount > 0]; with both at zero no convolver is created and
    the connections made are exactly the dry path, source -> filter ->
    track gain -> outputs. *)
Theorem rebuild_wires_effects_only_when_mixed s t c buf :
  audioContext t = Some c -> audioBuffer s = Some buf ->
  exists source t' c' created added,
    setupAudioNodes s t = (Some source, t') /\
    audioContext t' = Some c' /\
    nodes c' = created ++ nodes c /\
    connections c' = added ++ keptEdges (refs t) c /\
    (exists d, In (d, DelayNode 5 (delayAmount s)) created) /\
    (forall v b, In (v, ConvolverNode b) created -> 0 < reverbAmount s) /\
    (forall d m dt e,
        In (d, DelayNode m dt) created -> In e added -> touches d e ->
        0 < delayAmount s) /\
    (forall v b e,
        In (v, ConvolverNode b) created -> In e added -> touches v e ->
        0 < reverbAmount s) /\
    (delayAmount s == 0 -> reverbAmount s == 0 ->
       (forall v b, ~ In (v, ConvolverNode b) created) /\
       exists gain filter,
         lookup source (nodes c') =
           Some (AudioBufferSourceNode (Some buf) true 0 0 Unscheduled) /\
         lookup filter (nodes c') = Some (BiquadFilterNode "lowpass" (filterFreq s)) /\
         lookup gain (nodes c') = Some (GainNode 1) /\
         added =
           (if destinationNode (props t) then [(gain, ToMediaStreamDestination)] else []) ++
           [(gain, ToDestination); (filter, ToNode gain); (source, ToNode filter)]).
Proof.
  intros Hc Hb.
  destruct (setupAudioNodes_run s t c buf Hc Hb) as (t' & Hrun & Hctx).
  set (n := nextId c) in *.
  exists n, t'. eexists. exists (builtNodes s (refs t) buf n), (builtEdges (props t) s (refs t) n).
  split; [exact Hrun|]. split; [exact Hctx|]. cbn [nodes connections].
  split; [reflexivity|]. split; [reflexivity|].
  split; [exists (delayId n); apply built_delay_node_exists|].
  split; [intros v b Hv; eapply reverbOn_positive, built_convolver_node; exact Hv|].
  split.
  { intros d m dt e Hd He Ht. apply built_delay_node in Hd. subst d.
    pose proof (edge_touching_delay _ _ _ _ _ He Ht) as Hgt.
    destruct (JS_gt_spec (delayAmount s) 0); [assumption | discriminate]. }
  split; [intros v b e Hv _ _; eapply reverbOn_positive, built_convolver_node; exact Hv|].
  intros Hd0 Hr0. split.
  - intros v b Hv. apply built_convolver_node, reverbOn_positive in Hv. lra.
  - exists (gainId n), (filterId n).
    split; [apply lookup_source|]. split; [apply lookup_filter|]. split; [apply lookup_gain|].
    rewrite (dry_edges_only _ _ _ _ Hd0 Hr0). unfold outputEdges, dryEdges.
    destruct (destinationNode (props t)); reflexivity.
Qed.

Lemma rebuild_wires_effects_only_when_mixed_witness :
  let t := Scenario.trackWithRegion 0 4 in
  exists source t' c',
    setupAudioNodes (st t) t = (Some source, t') /\ audioContext t' = Some c' /\
    connections c' =
      [(1%nat, ToMediaStreamDestination); (1%nat, ToDestination);
       (2%nat, ToNode 1%nat); (0%nat, ToNode 2%nat)].
Proof.
  intro t.
  destruct (rebuild_wires_effects_only_when_mixed (st t) t newAudioContext Scenario.clip4
              eq_refl eq_refl)
    as (source & t' & c' & created & added & Hrun & Hctx & _).
  exists source, t', c'. split; [exact Hrun|]. split; [exact Hctx|].
  vm_compute in Hrun. injection Hrun as _ <-. vm_compute in Hctx. injection Hctx as <-.
  reflexivity.
Defined.

(** C3 as stated fails: with both mixes at zero the build still
    instantiates a delay node (identifier 3 in a fresh context). *)
Lemma rebuild_instantiates_delay_node_at_zero_mix :
  ~ (forall s t c buf source t' c',
       audioContext t = Some c -> audioBuffer s = Some buf ->
       delayAmount s == 0 -> reverbAmount s == 0 ->
       setupAudioNodes s t = (Some source, t') -> audioContext t' = Some c' ->
       forall i node, (nextId c <= i)%nat -> lookup i (nodes c') = Some node ->
                      isDelay node = false /\ isConvolver node = false).
Proof.
  intro H.
  pose (t := Scenario.trackWithRegion 0 4).
  assert (Hrun : exists t' c',
             setupAudioNodes (st t) t = (Some 0%nat, t') /\ audioContext t' = Some c' /\
             lookup 3%nat (nodes c') = Some (DelayNode 5 0)).
  { vm_compute. eexists. eexists. repeat split. }
  destruct Hrun as (t' & c' & H1 & H2 & H3).
  assert (Hd0 : delayAmount (st t) == 0) by reflexivity.
  assert (Hr0 : reverbAmount (st t) == 0) by reflexivity.
  destruct (H (st t) t newAudioContext Scenario.clip4 0%nat t' c' eq_refl eq_refl
              Hd0 Hr0 H1 H2 3%nat (DelayNode 5 0) (Nat.le_0_l 3) H3) as [Hd _].
  discriminate Hd.
Qed.

(** The converse for the delay branch: a positive delay wires it. *)
Lemma delay_branch_wired_when_mixed p s r n :
  0 < delayAmount s -> incl (delayEdges n) (builtEdges p s r n).
Proof.
  intro H. unfold builtEdges.
  destruct (JS_gt_spec (delayAmount s) 0); [|contradiction].
  intros e He. apply in_or_app. right. apply in_or_app. right.
  apply in_or_app. left. exact He.
Qed.

Lemma keptEdges_incl r c : incl (keptEdges r c) (connections c).
Proof.
  unfold keptEdges. destruct (sourceNodeRef r); [|apply incl_refl].
  intros e He. apply filter_In in He. tauto.
Qed.

(** C10: in every build the filter feeds the track gain directly, the
    track gain has the default gain 1, and the gain node holding
    [1 - max(reverbAmount, 0)] is created by the build but is no end of any
    connection it makes (nor of any connection of the context, when none
    touched that identifier before); this holds whatever the reverb and
    delay amounts are. *)
Theorem dry_gain_node_is_never_connected s t c buf :
  audioContext t = Some c -> audioBuffer s = Some buf ->
  exists source t' c' added filter gain dry,
    setupAudioNodes s t = (Some source, t') /\
    audioContext t' = Some c' /\
    connections c' = added ++ keptEdges (refs t) c /\
    lookup filter (nodes c') = Some (BiquadFilterNode "lowpass" (filterFreq s)) /\
    lookup gain (nodes c') = Some (GainNode 1) /\
    lookup dry (nodes c') = Some (GainNode (1 - JS.Math_max (reverbAmount s) 0)) /\
    (nextId c <= dry < nextId c')%nat /\
    In (source, ToNode filter) added /\
    In (filter, ToNode gain) added /\
    In (gain, ToDestination) added /\
    (forall e, In e added -> ~ touches dry e) /\
    ((forall e, In e (connections c) -> ~ touches dry e) ->
     forall e, In e (connections c') -> ~ touches dry e).
Proof.
  intros Hc Hb.
  destruct (setupAudioNodes_run s t c buf Hc Hb) as (t' & Hrun & Hctx).
  set (n := nextId c) in *.
  exists n, t'. eexists. exists (builtEdges (props t) s (refs t) n).
  exists (filterId n), (gainId n), (dryGainId s (refs t) n).
  split; [exact Hrun|]. split; [exact Hctx|]. cbn [nodes connections nextId].
  split; [reflexivity|].
  split; [apply lookup_filter|]. split; [apply lookup_gain|]. split; [apply lookup_dry_gain|].
  split; [unfold_ids; destruct (reverbOn s (refs t)); lia|].
  assert (Hdry : incl (dryEdges n) (builtEdges (props t) s (refs t) n)).
  { unfold builtEdges. intros e He. do 3 (apply in_or_app; right). exact He. }
  split; [apply Hdry; cbn; tauto|]. split; [apply Hdry; cbn; tauto|].
  split.
  { unfold builtEdges, outputEdges. apply in_or_app. left. apply in_or_app. right.
    cbn. tauto. }
  split; [intros e He; exact (edge_touching_dry_gain _ _ _ _ _ He)|].
  intros Hold e He. apply in_app_or in He. destruct He as [He | He].
  - exact (edge_touching_dry_gain _ _ _ _ _ He).
  - apply Hold. exact (keptEdges_incl _ _ _ He).
Qed.

Lemma dry_gain_node_is_never_connected_witness :
  let t := AudioTrack.withState
             (fun s => {| audioBuffer := audioBuffer s; isLoading := isLoading s;
                          trackPlaying := trackPlaying s; syncToMaster := syncToMaster s;
                          loopStart := loopStart s; loopEnd := loopEnd s;
                          trackTempo := trackTempo s; reverbAmount := 1 # 4;
                          delayAmount := 1 # 2; filterFreq := filterFreq s;
                          isRecording := isRecording s |})
             (Scenario.trackWithRegion 0 4) in
  exists source t' c' dry,
    setupAudioNodes (st t) t = (Some source, t') /\ audioContext t' = Some c' /\
    lookup dry (nodes c') = Some (GainNode (1 - JS.Math_max (1 # 4) 0)) /\
    forall e, In e (connections c') -> ~ touches dry e.
Proof.
  intro t.
  destruct (dry_gain_node_is_never_connected (st t) t newAudioContext Scenario.clip4
              eq_refl eq_refl)
    as (source & t' & c' & added & filter & gain & dry & Hrun & Hctx & _ & _ & _ & Hdry & _ &
        _ & _ & _ & _ & Hall).
  exists source, t', c', dry. split; [exact Hrun|]. split; [exact Hctx|].
  split; [exact Hdry|]. apply Hall. intros e [].
Defined.

End TrackGraphProperties.

(** ** Session: track list and master recording *)

Section SessionProperties.

Import WebAudio Media AudioLooper.

Lemma addTrack_tracks now m :
  tracks (st (addTrack now m)) =
  if Nat.ltb (List.length (tracks (st m))) 16
  then tracks (st m) ++ [ {| id := now; audioBuffer := None |} ]
  else tracks (st m).
Proof. unfold addTrack. destruct (Nat.ltb _ 16); reflexivity. Qed.

Lemma addTrack_length now m :
  (List.length (tracks (st m)) <= 16)%nat ->
  (List.length (tracks (st m)) <= List.length (tracks (st (addTrack now m))) <= 16)%nat.
Proof.
  intro H. rewrite addTrack_tracks.
  destruct (Nat.ltb_spec (List.length (tracks (st m))) 16) as [Hlt | Hge].
  - rewrite length_app. cbn [List.length]. lia.
  - lia.
Qed.

(** Only [addTrack] changes the track list. *)
Lemma dispatch_tracks m ev :
  (List.length (tracks (st m)) <= 16)%nat ->
  (List.length (tracks (st m)) <= List.length (tracks (st (dispatch m ev))) <= 16)%nat.
Proof.
  intro H. destruct ev; cbn [dispatch]; try apply addTrack_length; try assumption;
    destruct m as [[tr mt pl rc rt rb] [ac mr ch tm ds] cons]; cbn in H.
  - unfold initAudioContext; cbn. destruct ac; [|destruct supported]; cbn; lia.
  - unfold handleMasterPlay, resumeIfSuspended; cbn.
    destruct ac as [c|]; [destruct (state c)|]; cbn; lia.
  - cbn. lia.
  - unfold startMasterRecording, resumeIfSuspended; cbn.
    destruct ac as [c|], ds, rc; cbn; try lia.
    destruct (state c), recorderOk, pl; cbn; lia.
  - unfold stopMasterRecording; cbn.
    destruct mr as [[|]|], rc; cbn; try lia. destruct tm; cbn; lia.
  - unfold mediaRecorder_ondataavailable. destruct (Nat.ltb 0 (size data)); cbn; lia.
  - unfold mediaRecorder_onstop; cbn. destruct ch; cbn; [lia|]. destruct tm; cbn; lia.
  - cbn. lia.
Qed.

Lemma run_tracks evs : forall m,
  (List.length (tracks (st m)) <= 16)%nat ->
  (List.length (tracks (st m)) <= List.length (tracks (st (run m evs))) <= 16)%nat.
Proof.
  induction evs as [|ev evs IH]; intros m H; cbn [run fold_left].
  - lia.
  - pose proof (dispatch_tracks m ev H) as H1.
    pose proof (IH (dispatch m ev) (proj2 H1)) as H2. unfold run in H2. lia.
Qed.

(** C9: [addTrack] appends a track exactly when fewer than 16 exist, and
    leaves the session as it is when 16 (or more) exist; in every state the
    session reaches from its initial one, there are between 1 and 16
    tracks. *)
Theorem track_count_never_exceeds_16 now m evs :
  ((List.length (tracks (st m)) < 16)%nat ->
     tracks (st (addTrack now m)) = tracks (st m) ++ [ {| id := now; audioBuffer := None |} ]) /\
  ((16 <= List.length (tracks (st m)))%nat -> addTrack now m = m) /\
  (1 <= List.length (tracks (st (run initial evs))) <= 16)%nat.
Proof.
  split; [|split].
  - intro H. rewrite addTrack_tracks.
    destruct (Nat.ltb_spec (List.length (tracks (st m))) 16); [reflexivity | lia].
  - intro H. unfold addTrack.
    destruct (Nat.ltb_spec (List.length (tracks (st m))) 16); [lia | reflexivity].
  - assert (H0 : (List.length (tracks (st initial)) <= 16)%nat) by (cbn; lia).
    pose proof (run_tracks evs initial H0) as H. cbn [initial st tracks List.length] in H.
    exact H.
Qed.

Lemma track_count_never_exceeds_16_witness :
  List.length (tracks (st Scenario.fullSession)) = 16%nat /\
  addTrack 99 Scenario.fullSession = Scenario.fullSession.
Proof.
  split; [reflexivity|].
  apply (proj1 (proj2 (track_count_never_exceeds_16 99 Scenario.fullSession []))).
  apply Nat.le_refl.
Defined.

(** Empty chunks are not collected. *)
Lemma run_empty_data datas : forall m tail,
  Forall (fun d => size d = 0%nat) datas ->
  run m (map DataAvailable datas ++ tail) = run m tail.
Proof.
  induction datas as [|d datas IH]; intros m tail H; [reflexivity|].
  inversion H as [|? ? Hd Hrest]; subst.
  cbn [map app run fold_left dispatch]. unfold mediaRecorder_ondataavailable.
  rewrite Hd. cbn [Nat.ltb Nat.leb]. apply IH. exact Hrest.
Qed.

(** C8: [startMasterRecording] on a session that is already recording
    returns the session unchanged; the recorder's stop handler, run with no
    collected chunk, only appends the warning to the log (no blob is set);
    and a whole take that starts on a ready session, receives only empty
    chunks and is stopped ends with no recorded blob, not recording, and
    exactly that warning logged. *)
Theorem master_recording_guards m :
  (forall recorderOk timer,
      isRecording (st m) = true -> startMasterRecording recorderOk timer m = m) /\
  (recordedChunksRef (refs m) = [] ->
      mediaRecorder_onstop m = log "No data recorded" m /\
      recordedBlob (st (mediaRecorder_onstop m)) = recordedBlob (st m)) /\
  (forall c timer datas,
      audioContextRef (refs m) = Some c -> destinationRef (refs m) = true ->
      isRecording (st m) = false ->
      Forall (fun d => size d = 0%nat) datas ->
      let m' := run m (StartRecording true timer :: map DataAvailable datas ++
                         [StopRecording; RecorderStopped]) in
      recordedBlob (st m') = None /\
      isRecording (st m') = false /\
      recordedChunksRef (refs m') = [] /\
      console m' = console m ++ ["No data recorded"%string]).
Proof.
  split; [|split].
  - intros ok timer H. unfold startMasterRecording. rewrite H.
    destruct (audioContextRef (refs m)); [destruct (destinationRef (refs m))|]; reflexivity.
  - intro H. unfold mediaRecorder_onstop. rewrite H. split; reflexivity.
  - intros c timer datas Hc Hd Hr Hdatas m'. unfold m'.
    change (run m (StartRecording true timer :: map DataAvailable datas ++
                     [StopRecording; RecorderStopped]))
      with (run (startMasterRecording true timer m)
              (map DataAvailable datas ++ [StopRecording; RecorderStopped])).
    rewrite (run_empty_data datas _ _ Hdatas).
    destruct m as [[tr mt pl rc rt rb] [ac mr ch tm ds] cons]. cbn in Hc, Hd, Hr. subst.
    unfold run, startMasterRecording, resumeIfSuspended. cbn.
    destruct (state c), pl; cbn; repeat split.
Qed.

Lemma master_recording_guards_witness :
  let m := Scenario.readySession in
  let m' := run m [StartRecording true 7; DataAvailable EmptyString; StopRecording;
                   RecorderStopped] in
  recordedBlob (st m) <> None /\ recordedBlob (st m') = None /\
  startMasterRecording true 8 (startMasterRecording true 7 m) = startMasterRecording true 7 m.
Proof.
  intros m m'. split; [discriminate|]. split.
  - assert (Hempty : Forall (fun d : BlobPart => size d = 0%nat) [EmptyString])
      by (constructor; [reflexivity | constructor]).
    exact (proj1 (proj2 (proj2 (master_recording_guards m)) newAudioContext 7%nat [EmptyString]
             eq_refl eq_refl eq_refl Hempty)).
  - exact (proj1 (master_recording_guards (startMasterRecording true 7 m)) true 8%nat eq_refl).
Defined.

End SessionProperties.

(** ** Session: recorder, timer and context over whole event sequences *)


Section SessionRecordingProperties.

Import WebAudio Media AudioLooper SessionInvariant.



End SessionRecordingProperties.

(** ** Session: a whole master take *)

Section SessionTakeProperties.

Import WebAudio Media AudioLooper SessionInvariant Take.

(** Chunks and ticks accumulate while the take runs. *)
Lemma run_during_take mid : forall m tail,
  forallb duringTake mid = true ->
  run m (mid ++ tail) =
  run (withState (fun s => setRecordingTime (recordingTime s + ticksOf mid) s)
         (withRefs (fun r => setRecordedChunksRef
                               (recordedChunksRef r ++ filter nonEmpty (dataOf mid)) r) m))
      tail.
Proof.
  induction mid as [|ev mid IH]; intros m tail H.
  - destruct m as [[tr mt pl rc rt rb] [ac mr ch tm ds] cons].
    unfold withState, withRefs, setRecordingTime, setRecordedChunksRef. cbn.
    rewrite app_nil_r, Nat.add_0_r. reflexivity.
  - cbn [forallb] in H. apply andb_prop in H. destruct H as [Hev Hmid].
    destruct ev; try discriminate Hev; cbn [app run fold_left dispatch].
    + fold (run (mediaRecorder_ondataavailable data m) (mid ++ tail)).
      rewrite (IH _ tail Hmid). unfold mediaRecorder_ondataavailable.
      destruct m as [[tr mt pl rc rt rb] [ac mr ch tm ds] cons].
      cbn [dataOf ticksOf filter]. unfold nonEmpty at 2.
      unfold withState, withRefs, setRecordingTime, setRecordedChunksRef.
      destruct (Nat.ltb 0 (size data)); cbn; [rewrite <- app_assoc|]; reflexivity.
    + fold (run (timer_tick m) (mid ++ tail)).
      rewrite (IH _ tail Hmid).
      destruct m as [[tr mt pl rc rt rb] [ac mr ch tm ds] cons].
      unfold timer_tick, withState, withRefs, setRecordingTime, setRecordedChunksRef. cbn.
      rewrite <- Nat.add_assoc. reflexivity.
Qed.

(** X4: a take that starts on a ready session, during which data and timer
    events arrive in any order, and that is then stopped: the blob holds
    exactly the non-empty chunks in arrival order (no blob when there is
    none), the clock shows the number of ticks, the timer is cleared, and
    playback, started with the take, is still on. *)
Theorem master_take_result m c timer mid :
  audioContextRef (refs m) = Some c -> destinationRef (refs m) = true ->
  isRecording (st m) = false ->
  forallb duringTake mid = true ->
  let m' := run m (StartRecording true timer :: mid ++ [StopRecording; RecorderStopped]) in
  recordedBlob (st m') =
    match filter nonEmpty (dataOf mid) with
    | [] => None
    | chunks => Some {| parts := chunks; type := "audio/webm" |}
    end /\
  recordingTime (st m') = ticksOf mid /\
  isRecording (st m') = false /\
  recordingTimerRef (refs m') = None /\
  isPlaying (st m') = true /\
  tracks (st m') = tracks (st m).
Proof.
  intros Hc Hd Hr Hmid m'. unfold m'.
  change (run m (StartRecording true timer :: mid ++ [StopRecording; RecorderStopped]))
    with (run (startMasterRecording true timer m) (mid ++ [StopRecording; RecorderStopped])).
  rewrite (run_during_take mid _ _ Hmid).
  destruct m as [[tr mt pl rc rt rb] [ac mr ch tm ds] cons]. cbn in Hc, Hd, Hr. subst.
  unfold run, startMasterRecording, resumeIfSuspended. cbn.
  destruct (state c), pl; cbn;
    destruct (filter nonEmpty (dataOf mid)); cbn; repeat split.
Qed.

Lemma master_take_result_witness :
  let m' := run Scenario.readySession
              [StartRecording true 7; DataAvailable "ab"%string; Tick; DataAvailable EmptyString;
               Tick; DataAvailable "cd"%string; StopRecording; RecorderStopped] in
  recordedBlob (st m') = Some {| parts := ["ab"%string; "cd"%string]; type := "audio/webm" |} /\
  recordingTime (st m') = 2%nat.
Proof.
  intro m'.
  destruct (master_take_result Scenario.readySession newAudioContext 7%nat
              [DataAvailable "ab"%string; Tick; DataAvailable EmptyString; Tick; DataAvailable "cd"%string]
              eq_refl eq_refl eq_refl eq_refl) as (Hb & Ht & _).
  split; [exact Hb | exact Ht].
Defined.

(** X5: stopping twice is stopping once, and stopping a session that is not
    recording changes nothing. *)
Theorem stopMasterRecording_idempotent m :
  stopMasterRecording (stopMasterRecording m) = stopMasterRecording m /\
  (isRecording (st m) = false -> stopMasterRecording m = m).
Proof.
  destruct m as [[tr mt pl rc rt rb] [ac mr ch tm ds] cons].
  unfold stopMasterRecording; cbn. split.
  - destruct mr as [[|]|], rc; cbn; try reflexivity; destruct tm; reflexivity.
  - intros ->. destruct mr as [[|]|]; reflexivity.
Qed.


End SessionTakeProperties.

(** ** Knob: indicator and drag behaviour *)

Section KnobDragProperties.

Import Knob KnobView.

(** X7: the indicator stays on its 270-degree arc, from -135 at [min] to 135
    at [max], for every value of the range. *)
Theorem knob_indicator_stays_on_arc p :
  min p < max p -> min p <= value p <= max p ->
  0 <= normalizedValue p <= 1 /\
  -(135) <= degrees p <= 135 /\
  (value p == min p -> degrees p == -(135)) /\
  (value p == max p -> degrees p == 135).
Proof.
  intros Hlt [Hlo Hhi]. unfold degrees, normalizedValue.
  set (r := (value p - min p) / (max p - min p)).
  assert (H0 : 0 <= r) by (apply Qle_shift_div_l; lra).
  assert (H1 : r <= 1) by (apply Qle_shift_div_r; lra).
  repeat split; try lra.
  - intro E. assert (Er : r == 0) by (unfold r; rewrite E; field; lra). rewrite Er. reflexivity.
  - intro E. assert (Er : r == 1) by (unfold r; rewrite E; field; lra). rewrite Er. reflexivity.
Qed.

Lemma knob_indicator_stays_on_arc_witness :
  -(135) <= degrees Scenario.tempoKnob <= 135.
Proof.
  assert (Hlt : min Scenario.tempoKnob < max Scenario.tempoKnob) by reflexivity.
  assert (Hin : min Scenario.tempoKnob <= value Scenario.tempoKnob <= max Scenario.tempoKnob)
    by (split; discriminate).
  exact (proj1 (proj2 (knob_indicator_stays_on_arc Scenario.tempoKnob Hlt Hin))).
Defined.

Lemma Math_round_monotone a b : a <= b -> JS.Math_round a <= JS.Math_round b.
Proof.
  intro H. unfold JS.Math_round. rewrite <- Zle_Qle. apply Qfloor_resp_le. lra.
Qed.


Lemma clamp_monotone lo hi u1 u2 :
  u1 <= u2 ->
  JS.Math_max lo (JS.Math_min hi u1) <= JS.Math_max lo (JS.Math_min hi u2).
Proof.
  intro H.
  destruct (Math_min_cases hi u1) as [[? ->] | [? ->]];
    destruct (Math_min_cases hi u2) as [[? ->] | [? ->]];
    repeat match goal with
           | |- context [JS.Math_max ?a ?b] =>
               destruct (Math_max_cases a b) as [[? ->] | [? ->]]
           end; lra.
Qed.

Lemma clamp_then_round_monotone p u1 u2 :
  0 <= step p -> u1 <= u2 ->
  (let newValue := JS.Math_max (min p) (JS.Math_min (max p) u1) in
   if JS.neq (step p) 0 then JS.Math_round (newValue / step p) * step p else newValue) <=
  (let newValue := JS.Math_max (min p) (JS.Math_min (max p) u2) in
   if JS.neq (step p) 0 then JS.Math_round (newValue / step p) * step p else newValue).
Proof.
  intros Hs Hu. cbv zeta.
  pose proof (clamp_monotone (min p) (max p) u1 u2 Hu) as Hc.
  destruct (JS_neq_spec (step p) 0) as [Hn | Hn]; [|exact Hc].
  assert (Hpos : 0 < step p) by (destruct (Qlt_le_dec 0 (step p)); [assumption | exfalso; apply Hn; lra]).
  apply Qmult_le_compat_r; [|lra].
  apply Math_round_monotone.
  unfold Qdiv. apply Qmult_le_compat_r; [exact Hc|].
  apply Qlt_le_weak, Qinv_lt_0_compat. exact Hpos.
Qed.

(** X8: dragging the pointer further down never raises the emitted value (and
    further up never lowers it), for a knob with [min <= max] and
    [step >= 0]. *)
Theorem knob_drag_is_monotone p st e1 e2 v1 v2 :
  min p <= max p -> 0 <= step p ->
  clientY e1 <= clientY e2 ->
  handleMouseMove p st e1 = Some v1 -> handleMouseMove p st e2 = Some v2 ->
  v2 <= v1.
Proof.
  intros Hle Hs Hy H1 H2. unfold handleMouseMove in H1, H2.
  destruct (isDragging st); [|discriminate]. cbn [negb] in H1, H2.
  injection H1 as <-. injection H2 as <-.
  apply clamp_then_round_monotone; [exact Hs|].
  unfold sensitivity.
  assert (Hd : (clientY e1 - startY st) / 200 <= (clientY e2 - startY st) / 200).
  { unfold Qdiv. apply Qmult_le_compat_r; [lra | discriminate]. }
  assert (Hm : (clientY e1 - startY st) / 200 * (max p - min p) <=
               (clientY e2 - startY st) / 200 * (max p - min p))
    by (apply Qmult_le_compat_r; [exact Hd | lra]).
  lra.
Qed.

Lemma knob_drag_is_monotone_witness :
  exists v1 v2,
    handleMouseMove Scenario.tempoKnob Scenario.grabbed {| clientX := 40; clientY := 280 |}
      = Some v1 /\
    handleMouseMove Scenario.tempoKnob Scenario.grabbed {| clientX := 40; clientY := 310 |}
      = Some v2 /\
    v2 <= v1.
Proof.
  eexists. eexists. split; [reflexivity|]. split; [reflexivity|].
  apply (knob_drag_is_monotone Scenario.tempoKnob Scenario.grabbed
           {| clientX := 40; clientY := 280 |} {| clientX := 40; clientY := 310 |});
    try reflexivity; discriminate.
Defined.



End KnobDragProperties.

(** ** Waveform: envelope, overlay and idle behaviour *)

Section WaveformViewProperties.

Import WaveformDisplay WaveformView.

(** The running extrema only move outward. *)
Lemma scan_widens (data : list JS.number) count : forall index lo hi,
  fst (scan data index count lo hi) <= lo /\ hi <= snd (scan data index count lo hi).
Proof.
  induction count as [|count IH]; intros index lo hi; cbn [scan fst snd]; [lra|].
  destruct (nth_error data index) as [datum|]; [|apply IH].
  cbv zeta.
  destruct (IH (S index) (if JS.lt datum lo then datum else lo)
               (if JS.gt datum hi then datum else hi)) as [H1 H2].
  destruct (JS_lt_spec datum lo), (JS_gt_spec datum hi); split; lra.
Qed.

(** Every sample the inner loop visits lies between the extrema. *)
Lemma scan_bounds (data : list JS.number) count : forall index lo hi k d,
  (index <= k < index + count)%nat -> nth_error data k = Some d ->
  fst (scan data index count lo hi) <= d <= snd (scan data index count lo hi).
Proof.
  induction count as [|count IH]; intros index lo hi k d Hk Hd; [lia|].
  cbn [scan].
  destruct (Nat.eq_dec k index) as [-> | Hne].
  - rewrite Hd. cbv zeta.
    destruct (scan_widens data count (S index) (if JS.lt d lo then d else lo)
                (if JS.gt d hi then d else hi)) as [H1 H2].
    destruct (JS_lt_spec d lo), (JS_gt_spec d hi); split; lra.
  - destruct (nth_error data index) as [datum|]; cbv zeta;
      apply (IH _ _ _ k d); try assumption; lia.
Qed.

(** Past the end of the data the loop changes nothing. *)
Lemma scan_past_end (data : list JS.number) count : forall index lo hi,
  (List.length data <= index)%nat -> scan data index count lo hi = (lo, hi).
Proof.
  induction count as [|count IH]; intros index lo hi H; [reflexivity|].
  cbn [scan]. rewrite (proj2 (nth_error_None data index) H). apply IH. lia.
Qed.

(** With samples in [[-1, 1]] the extrema stay in [[-1, 1]]. *)
Lemma scan_normalised (data : list JS.number) count : forall index lo hi,
  Forall (fun d => -(1) <= d <= 1) data ->
  -(1) <= lo <= 1 -> -(1) <= hi <= 1 ->
  -(1) <= fst (scan data index count lo hi) <= 1 /\
  -(1) <= snd (scan data index count lo hi) <= 1.
Proof.
  induction count as [|count IH]; intros index lo hi Hall Hlo Hhi; cbn [scan fst snd];
    [split; assumption|].
  destruct (nth_error data index) as [datum|] eqn:E; [|apply IH; assumption].
  cbv zeta. apply nth_error_In in E.
  pose proof (proj1 (Forall_forall _ data) Hall datum E) as Hd. cbv beta in Hd.
  apply IH; [assumption | |].
  - destruct (JS.lt datum lo); assumption.
  - destruct (JS.gt datum hi); assumption.
Qed.

Lemma step_positive (data : list JS.number) width :
  0 < width -> (0 < List.length data)%nat ->
  (0 < step data width)%nat /\
  inject_Z (Z.of_nat (List.length data)) <= inject_Z (Z.of_nat (step data width)) * width.
Proof.
  intros Hw Hlen. unfold step.
  set (len := inject_Z (Z.of_nat (List.length data))).
  assert (Hl : 0 < len).
  { unfold len. change 0 with (inject_Z 0). rewrite <- Zlt_Qlt. lia. }
  assert (Hq : 0 < len / width).
  { unfold Qdiv. apply Qmult_lt_0_compat; [exact Hl|]. apply Qinv_lt_0_compat. exact Hw. }
  pose proof (Qle_ceiling (len / width)) as Hc.
  assert (Hz : (0 < Qceiling (len / width))%Z).
  { rewrite Zlt_Qlt. change (inject_Z 0) with 0. lra. }
  split; [lia|].
  rewrite Z2Nat.id by lia.
  assert (E : len == len / width * width) by (field; lra).
  rewrite E at 1. apply Qmult_le_compat_r; lra.
Qed.

(** X10: on a canvas of positive width every sample of channel 0 falls in one
    of the drawn columns, column [k / step], and lies between the extrema
    computed for that column. *)
Theorem envelope_covers_every_sample (data : list JS.number) width k d :
  0 < width -> nth_error data k = Some d ->
  let i := (k / step data width)%nat in
  (i < columns width)%nat /\
  nth_error (envelope data width) i = Some (column data (step data width) i) /\
  fst (column data (step data width) i) <= d <= snd (column data (step data width) i).
Proof.
  intros Hw Hd i.
  assert (Hk : (k < List.length data)%nat)
    by (apply nth_error_Some; rewrite Hd; discriminate).
  destruct (step_positive data width Hw) as [Hs Hcover]; [lia|].
  set (s := step data width) in *.
  assert (Hdiv : (i * s <= k < i * s + s)%nat).
  { unfold i. pose proof (Nat.div_mod_eq k s) as E.
    pose proof (Nat.mod_upper_bound k s) as Hm. lia. }
  assert (Hi : (i < columns width)%nat).
  { unfold columns.
    assert (Hlt : inject_Z (Z.of_nat i) < width).
    { apply (Qmult_lt_r _ _ (inject_Z (Z.of_nat s))).
      - change 0 with (inject_Z 0). rewrite <- Zlt_Qlt. lia.
      - assert (H1 : inject_Z (Z.of_nat i) * inject_Z (Z.of_nat s) <
                     inject_Z (Z.of_nat (List.length data))).
        { rewrite <- inject_Z_mult, <- Zlt_Qlt. lia. }
        rewrite (Qmult_comm width). lra. }
    pose proof (Qle_ceiling width) as Hc.
    assert (Hz : (Z.of_nat i < Qceiling width)%Z) by (rewrite Zlt_Qlt; lra).
    lia. }
  split; [exact Hi|]. split.
  - unfold envelope. rewrite nth_error_map, nth_error_seq.
    destruct (Nat.ltb_spec i (columns width)); [reflexivity | lia].
  - unfold column. apply (scan_bounds data s (i * s) 1 (-(1)) k d Hdiv Hd).
Qed.

Lemma envelope_covers_every_sample_witness :
  nth_error (envelope Examples.fiveSamples 4) 1 = Some (-(1 # 4), 1 # 8).
Proof.
  pose proof (envelope_covers_every_sample Examples.fiveSamples 4 3 (1 # 8)
                eq_refl eq_refl) as (_ & H & _).
  exact H.
Defined.

(** X11: a column that starts past the end of the data keeps the initial
    extrema [(1, -1)], so its stroke runs over the whole height, from
    [height] down to 0. *)
Theorem column_past_data_spans_full_height (data : list JS.number) st i height :
  (List.length data <= i * st)%nat ->
  column data st i = (1, -(1)) /\
  fst (stroke height (column data st i)) == height /\
  snd (stroke height (column data st i)) == 0.
Proof.
  intro H. unfold column. rewrite (scan_past_end data st (i * st) 1 (-(1)) H).
  split; [reflexivity|]. unfold stroke. cbn [fst snd].
  split; [field | ring].
Qed.

(** With 5 samples on a canvas 4 wide the step is 2 and column 3 is such
    a column. *)
Lemma column_past_data_spans_full_height_witness :
  nth_error (envelope Examples.fiveSamples 4) 3 = Some (1, -(1)).
Proof.
  assert (H : (List.length Examples.fiveSamples <= 3 * 2)%nat) by (cbn; lia).
  rewrite <- (proj1 (column_past_data_spans_full_height
                       Examples.fiveSamples 2 3 128 H)).
  reflexivity.
Defined.

(** X12: when every sample lies in [[-1, 1]], every stroke of the envelope
    stays inside the canvas, between 0 and its height. *)
Theorem envelope_stays_inside_canvas (data : list JS.number) width height i extrema :
  Forall (fun d => -(1) <= d <= 1) data -> 0 <= height ->
  nth_error (envelope data width) i = Some extrema ->
  0 <= fst (stroke height extrema) <= height /\
  0 <= snd (stroke height extrema) <= height.
Proof.
  intros Hall Hh He. unfold envelope in He.
  rewrite nth_error_map, nth_error_seq in He.
  destruct (Nat.ltb i (columns width)); [|discriminate].
  cbn in He. injection He as <-. unfold column.
  assert (H1 : -(1) <= 1 <= 1) by lra.
  assert (H2 : -(1) <= -(1) <= 1) by lra.
  destruct (scan_normalised data (step data width) (i * step data width) 1 (-(1))
              Hall H1 H2) as [[Ha Hb] [Hc Hd]].
  unfold stroke. cbn [fst snd].
  set (lo := fst (scan _ _ _ _ _)) in *. set (hi := snd (scan _ _ _ _ _)) in *.
  assert (Hamp : 0 <= height / 2) by (apply Qle_shift_div_l; [reflexivity | lra]).
  assert (E : height == 2 * (height / 2)) by field.
  split; split.
  - apply Qmult_le_0_compat; lra.
  - rewrite E at 2. apply Qmult_le_compat_r; lra.
  - apply Qmult_le_0_compat; lra.
  - rewrite E at 2. apply Qmult_le_compat_r; lra.
Qed.

Lemma envelope_stays_inside_canvas_witness :
  0 <= fst (stroke 128 (-(1 # 4), 1 # 8)) <= 128.
Proof.
  assert (Hall : Forall (fun d => -(1) <= d <= 1) Examples.fiveSamples).
  { repeat constructor; discriminate. }
  assert (Hh : 0 <= 128) by discriminate.
  exact (proj1 (envelope_stays_inside_canvas Examples.fiveSamples 4 128 1
                  (-(1 # 4), 1 # 8) Hall Hh eq_refl)).
Defined.



(** X14: without a press nothing is reported: from a state that is not
    dragging, moves, releases and leaves in any number and order report no
    region change and leave the component not dragging. *)
Theorem no_region_change_without_press p evs : forall st,
  isDragging st = false -> forallb (fun ev => negb (isPress ev)) evs = true ->
  snd (run p st evs) = [] /\ isDragging (fst (run p st evs)) = false.
Proof.
  induction evs as [|ev evs IH]; intros st Hd Hevs; [split; [reflexivity | exact Hd]|].
  cbn [forallb] in Hevs. apply andb_prop in Hevs. destruct Hevs as [Hev Hrest].
  cbn [run].
  assert (Hstep : snd (dispatch p st ev) = None /\ isDragging (fst (dispatch p st ev)) = false).
  { destruct ev; try discriminate Hev; cbn [dispatch fst snd].
    - unfold handleMouseMove. rewrite Hd. split; [reflexivity | exact Hd].
    - unfold handleMouseUp. rewrite Hd. split; reflexivity.
    - unfold handleMouseUp. rewrite Hd. split; reflexivity.
    - unfold handleTouchMove. rewrite Hd. split; [reflexivity | exact Hd].
    - unfold handleTouchEnd. rewrite Hd. split; reflexivity. }
  destruct (dispatch p st ev) as [st1 n]. cbn [fst snd] in Hstep. destruct Hstep as [-> Hd1].
  destruct (IH st1 Hd1 Hrest) as [Hn Hf].
  destruct (run p st1 evs) as [st2 ns]. cbn [fst snd] in *. split; assumption.
Qed.

Lemma no_region_change_without_press_witness :
  let st := {| canvasRef := None; isDragging := false; dragStart := Some 1;
               dragEnd := Some 3; canvasWidth := 400; canvasHeight := 128 |} in
  snd (run {| duration := 4; loopStart := 0; loopEnd := 4 |} st
         [MouseMove 30; MouseUp; MouseLeave; TouchEnd]) = [].
Proof.
  intro st.
  exact (proj1 (no_region_change_without_press {| duration := 4; loopStart := 0; loopEnd := 4 |}
                  [MouseMove 30; MouseUp; MouseLeave; TouchEnd] st eq_refl eq_refl)).
Defined.

End WaveformViewProperties.

(** ** Track: playback *)


Section TrackPlaybackProperties.

Import WebAudio Media AudioTrack TrackGraph TrackBuild AudioTrackEffects.

(** *** The node store *)






(** Symbolic run of [setupAudioNodes], refs included. *)
Lemma wire_run_full p s buf c r :
  runState (wire p s buf) (c, r) =
  (nextId c, (builtContext p s r buf c, builtRefs s r (nextId c))).
Proof.
  unfold wire, builtContext, builtRefs, builtNodes, builtEdges, keptEdges, outputEdges,
    reverbEdges, delayEdges, dryEdges, dryGainId, reverbGainId, reverbOn, convolverId,
    delayGainId, delayId, filterId, gainId, sourceId.
  destruct c as [cs n ns es], r as [old g rv d f imp mr ch], p as [tid mt pl dst].
  destruct old, imp, dst, (JS.gt (delayAmount s) 0), (JS.gt (reverbAmount s) 0);
    repeat (cbn -[JS.Math_max Qminus]; rewrite ?Nat.eqb_refl); reflexivity.
Qed.

Lemma setupAudioNodes_full s t c buf :
  audioContext t = Some c -> audioBuffer s = Some buf ->
  setupAudioNodes s t =
  (Some (nextId c),
   {| props := props t; st := st t; refs := builtRefs s (refs t) (nextId c);
      audioContext := Some (builtContext (props t) s (refs t) buf c);
      console := console t |}).
Proof.
  intros Hc Hb. unfold setupAudioNodes. rewrite Hc, Hb, wire_run_full. reflexivity.
Qed.

Lemma stopAudio_full t :
  stopAudio t =
  {| props := props t; st := setTrackPlaying false (st t);
     refs := match sourceNodeRef (refs t) with
             | Some _ => setSourceNodeRef None (refs t)
             | None => refs t
             end;
     audioContext := option_map (stoppedContext (refs t)) (audioContext t);
     console := console t |}.
Proof.
  unfold stopAudio, stoppedContext, onNode, withContext, withRefs, withState.
  destruct t as [p s r c k]. cbn.
  destruct (sourceNodeRef r); cbn; [reflexivity|].
  destruct c as [[? ? ? ?]|]; reflexivity.
Qed.






End TrackPlaybackProperties.

(** ** Track: what every sequence of events keeps true *)

Section TrackConsistencyProperties.

Import WebAudio Media AudioTrack TrackGraph TrackBuild AudioTrackEffects.











End TrackConsistencyProperties.

(** ** Track: stop, region changes, transport and effect parameters *)

Section TrackTransportProperties.

Import WebAudio Media AudioTrack TrackGraph TrackBuild AudioTrackEffects.

(** X17: stopping twice is stopping once, and stopping a track that is not
    playing changes nothing. *)
Theorem stopAudio_is_idempotent t :
  stopAudio (stopAudio t) = stopAudio t /\
  (sourceNodeRef (refs t) = None -> trackPlaying (st t) = false -> stopAudio t = t).
Proof.
  split.
  - rewrite (stopAudio_full (stopAudio t)), (stopAudio_full t).
    cbn [props st refs audioContext console].
    destruct t as [p s [old g rv d f imp mr ch] c k]. cbn.
    destruct old; cbn; destruct c; reflexivity.
  - intros Hs Hp. rewrite stopAudio_full.
    destruct t as [p s [old g rv d f imp mr ch] c k]. cbn in *. subst.
    unfold stoppedContext. cbn. destruct s; cbn in *. subst.
    destruct c; reflexivity.
Qed.

Lemma stopAudio_is_idempotent_witness :
  stopAudio Scenario.emptyTrack = Scenario.emptyTrack.
Proof.
  exact (proj2 (stopAudio_is_idempotent Scenario.emptyTrack) eq_refl eq_refl).
Defined.







End TrackTransportProperties.

(** ** Track: master transport, effect knobs and effect branches *)

Section TrackEffectProperties.

Import WebAudio Media AudioTrack TrackGraph TrackBuild AudioTrackEffects.







(** X22: the effect branches of one build: with a positive delay the branch
    filter -> delay line -> gain 0.5 -> track gain is created and
    connected; with a positive reverb and an impulse response the branch
    filter -> convolver (holding the impulse) -> reverb gain -> track
    gain is; without an impulse response no convolver is created and no
    reverb connection is made, however large the reverb amount. *)
Theorem effect_branches_are_wired s t c buf :
  audioContext t = Some c -> audioBuffer s = Some buf ->
  exists t' c' created added,
    setupAudioNodes s t = (Some (nextId c), t') /\
    audioContext t' = Some c' /\
    nodes c' = created ++ nodes c /\
    connections c' = added ++ keptEdges (refs t) c /\
    (0 < delayAmount s ->
       exists filter gain delay delayGain,
         In (filter, BiquadFilterNode "lowpass" (filterFreq s)) created /\
         In (gain, GainNode 1) created /\
         In (delay, DelayNode 5 (delayAmount s)) created /\
         In (delayGain, GainNode (1 # 2)) created /\
         In (filter, ToNode delay) added /\
         In (delay, ToNode delayGain) added /\
         In (delayGain, ToNode gain) added) /\
    (forall impulse,
       reverbImpulseRef (refs t) = Some impulse -> 0 < reverbAmount s ->
       exists filter gain convolver reverbGain,
         In (filter, BiquadFilterNode "lowpass" (filterFreq s)) created /\
         In (gain, GainNode 1) created /\
         In (convolver, ConvolverNode (Some impulse)) created /\
         In (reverbGain, GainNode (reverbAmount s)) created /\
         In (filter, ToNode convolver) added /\
         In (convolver, ToNode reverbGain) added /\
         In (reverbGain, ToNode gain) added) /\
    (reverbImpulseRef (refs t) = None ->
       (forall i b, ~ In (i, ConvolverNode b) created) /\
       added = outputEdges (props t) (nextId c) ++
               (if JS.gt (delayAmount s) 0 then delayEdges (nextId c) else []) ++
               dryEdges (nextId c)).
Proof.
  intros Hc Hb. rewrite (setupAudioNodes_full s t c buf Hc Hb).
  eexists. exists (builtContext (props t) s (refs t) buf c).
  exists (builtNodes s (refs t) buf (nextId c)), (builtEdges (props t) s (refs t) (nextId c)).
  split; [reflexivity|]. split; [reflexivity|]. split; [reflexivity|].
  split; [reflexivity|].
  set (n := nextId c).
  assert (Hcommon :
    In (filterId n, BiquadFilterNode "lowpass" (filterFreq s)) (builtNodes s (refs t) buf n) /\
    In (gainId n, GainNode 1) (builtNodes s (refs t) buf n)).
  { unfold builtNodes. split; apply in_or_app; right; apply in_or_app; right; cbn; tauto. }
  split; [|split].
  - intro Hd. exists (filterId n), (gainId n), (delayId n), (delayGainId n).
    split; [apply Hcommon|]. split; [apply Hcommon|].
    split; [apply built_delay_node_exists|].
    assert (Hgt : JS.gt (delayAmount s) 0 = true)
      by (destruct (JS_gt_spec (delayAmount s) 0); [reflexivity | contradiction]).
    split.
    { unfold builtNodes. rewrite Hgt. apply in_or_app. right. apply in_or_app. right.
      cbn. tauto. }
    pose proof (delay_branch_wired_when_mixed (props t) s (refs t) n Hd) as Hincl.
    repeat split; apply Hincl; unfold delayEdges; cbn; tauto.
  - intros impulse Hi Hr.
    assert (Hgt : JS.gt (reverbAmount s) 0 = true)
      by (destruct (JS_gt_spec (reverbAmount s) 0); [reflexivity | contradiction]).
    exists (filterId n), (gainId n), (convolverId n), (reverbGainId s (refs t) n).
    split; [apply Hcommon|]. split; [apply Hcommon|].
    unfold builtNodes, builtEdges, reverbEdges, reverbOn. rewrite Hi, Hgt.
    split; [apply in_or_app; right; apply in_or_app; left; cbn; tauto|].
    split; [apply in_or_app; left; cbn; tauto|].
    repeat split; apply in_or_app; right; apply in_or_app; left; cbn; tauto.
  - intro Hi. split.
    + intros i b Hin. apply built_convolver_node in Hin.
      unfold reverbOn in Hin. rewrite Hi in Hin. discriminate.
    + unfold builtEdges, reverbOn. rewrite Hi. reflexivity.
Qed.

Lemma effect_branches_are_wired_witness :
  let s := setDelayAmount (1 # 2) (setReverbAmount (1 # 4) (st (Scenario.trackWithRegion 0 4))) in
  exists t' c',
    setupAudioNodes s (Scenario.trackWithRegion 0 4) = (Some 0%nat, t') /\
    audioContext t' = Some c' /\
    In (3%nat, DelayNode 5 (1 # 2)) (nodes c') /\
    In (2%nat, ToNode 3%nat) (connections c') /\
    (forall i b, ~ In (i, ConvolverNode b) (nodes c')).
Proof.
  intro s.
  destruct (effect_branches_are_wired s (Scenario.trackWithRegion 0 4) newAudioContext
              Scenario.clip4 eq_refl eq_refl)
    as (t' & c' & created & added & Hrun & Hctx & Hn & Ha & _ & _ & Hnone).
  exists t', c'. split; [exact Hrun|]. split; [exact Hctx|].
  destruct (Hnone eq_refl) as [Hconv _].
  vm_compute in Hrun. injection Hrun as <-. vm_compute in Hctx. injection Hctx as <-.
  cbn [nodes connections] in *. rewrite app_nil_r in Hn. subst created.
  split; [cbn; tauto|]. split; [cbn; tauto|]. exact Hconv.
Defined.

End TrackEffectProperties.

(** ** Session: clock display and export name *)

Section SessionViewProperties.

Import Media AudioLooper AudioLooperView.

Lemma hasColon_append a b : hasColon (String.append a b) = hasColon a || hasColon b.
Proof.
  induction a as [|c a IH]; [reflexivity|]. cbn [String.append hasColon].
  rewrite IH, orb_assoc. reflexivity.
Qed.

Lemma digits_have_no_colon d : hasColon (NilEmpty.string_of_uint d) = false.
Proof. induction d; cbn; trivial. Qed.

Lemma zeros_have_no_colon k : hasColon (string_of_list_ascii (repeat "0"%char k)) = false.
Proof. induction k; cbn; trivial. Qed.

Lemma padded_has_no_colon n : hasColon (padStart 2 "0" (toString n)) = false.
Proof.
  unfold padStart, toString.
  rewrite hasColon_append, zeros_have_no_colon, digits_have_no_colon. reflexivity.
Qed.

Lemma splitAtColon_append a b :
  hasColon a = false -> splitAtColon (String.append a (String ":" b)) = Some (a, b).
Proof.
  induction a as [|c a IH]; intro H; [reflexivity|].
  cbn [hasColon] in H. apply orb_false_elim in H. destruct H as [Hc Ha].
  cbn [String.append splitAtColon]. rewrite Hc, (IH Ha). reflexivity.
Qed.

Lemma parseNat_zeros k d :
  parseNat (String.append (string_of_list_ascii (repeat "0"%char k))
              (NilEmpty.string_of_uint d)) = Some (Nat.of_uint d).
Proof.
  unfold parseNat. induction k as [|k IH].
  - cbn [repeat string_of_list_ascii String.append]. rewrite NilEmpty.usu. reflexivity.
  - cbn [repeat string_of_list_ascii String.append NilEmpty.uint_of_string].
    destruct (NilEmpty.uint_of_string _) as [u|]; [|discriminate IH].
    cbn in IH |- *. injection IH as <-. reflexivity.
Qed.

Lemma parseNat_padded n : parseNat (padStart 2 "0" (toString n)) = Some n.
Proof.
  unfold padStart, toString. rewrite parseNat_zeros, DecimalNat.Unsigned.of_to. reflexivity.
Qed.

Lemma padded_below_100 n :
  (n < 100)%nat -> String.length (padStart 2 "0" (toString n)) = 2%nat.
Proof.
  intro H.
  assert (Hall : forallb (fun k => Nat.eqb (String.length (padStart 2 "0" (toString k))) 2)
                   (seq 0 100) = true) by (vm_compute; reflexivity).
  rewrite forallb_forall in Hall.
  apply Nat.eqb_eq, Hall, in_seq. lia.
Qed.

Lemma length_append a b :
  String.length (String.append a b) = (String.length a + String.length b)%nat.
Proof. induction a as [|c a IH]; [reflexivity|]. cbn. rewrite IH. reflexivity. Qed.

(** X23: the clock display can be read back: the number of seconds is the
    minutes field times 60 plus the seconds field; and below 100 minutes
    the display is always five characters wide. *)
Theorem formatTime_round_trip seconds :
  parseTime (formatTime seconds) = Some seconds /\
  ((seconds < 100 * 60)%nat -> String.length (formatTime seconds) = 5%nat).
Proof.
  unfold formatTime. cbv zeta. split.
  - unfold parseTime.
    change (String.append ":" (padStart 2 "0" (toString (seconds mod 60))))
      with (String ":" (padStart 2 "0" (toString (seconds mod 60)))).
    rewrite splitAtColon_append by apply padded_has_no_colon.
    rewrite !parseNat_padded. f_equal.
    pose proof (Nat.div_mod_eq seconds 60). lia.
  - intro H. rewrite !length_append.
    rewrite (padded_below_100 (seconds / 60)), (padded_below_100 (seconds mod 60)).
    + reflexivity.
    + pose proof (Nat.mod_upper_bound seconds 60). lia.
    + apply Nat.Div0.div_lt_upper_bound. lia.
Qed.

Lemma formatTime_round_trip_witness :
  formatTime 125 = "02:05"%string /\ String.length (formatTime 125) = 5%nat.
Proof.
  split; [reflexivity|].
  apply (proj2 (formatTime_round_trip 125)). lia.
Defined.

Lemma replaceColons_no_colon s : hasColon (replaceColons s) = false.
Proof.
  induction s as [|c s IH]; [reflexivity|]. cbn [replaceColons hasColon].
  rewrite IH. destruct (Ascii.eqb c ":") eqn:E; [reflexivity|]. rewrite E. reflexivity.
Qed.

Lemma replaceColons_length s : String.length (replaceColons s) = String.length s.
Proof. induction s as [|c s IH]; [reflexivity|]. cbn. rewrite IH. reflexivity. Qed.

Lemma substring_length_le n s : (String.length (substring 0 n s) <= n)%nat.
Proof.
  revert s. induction n as [|n IH]; intro s; destruct s; cbn; try lia.
  specialize (IH s). lia.
Qed.

Lemma substring_length_full n s :
  (n <= String.length s)%nat -> String.length (substring 0 n s) = n.
Proof.
  revert s. induction n as [|n IH]; intro s; destruct s; cbn; try lia.
  intro H. rewrite IH; lia.
Qed.

(** X24: the name of the download never contains a colon, whatever the
    timestamp text is, and is 47 characters long for every timestamp of
    at least 19 characters; nothing is offered while no recording is
    held. *)
Theorem download_name_has_no_colon iso m :
  hasColon (fileName iso) = false /\
  (String.length (fileName iso) <= 47)%nat /\
  ((19 <= String.length iso)%nat -> String.length (fileName iso) = 47%nat) /\
  (recordedBlob (st m) = None -> downloadRecording iso m = None).
Proof.
  unfold fileName. rewrite !hasColon_append, replaceColons_no_colon.
  rewrite !length_append, replaceColons_length.
  pose proof (substring_length_le 19 iso) as Hle.
  repeat split.
  - cbn. lia.
  - intro H. rewrite (substring_length_full 19 iso H). reflexivity.
  - intro H. unfold downloadRecording. rewrite H. reflexivity.
Qed.

Lemma download_name_has_no_colon_witness :
  fileName "2026-11-03T12:34:56.789Z" =
    "audio-looper-recording-2026-11-03T12-34-56.webm"%string /\
  String.length (fileName "2026-11-03T12:34:56.789Z") = 47%nat.
Proof.
  split; [reflexivity|].
  apply (proj1 (proj2 (proj2 (download_name_has_no_colon "2026-11-03T12:34:56.789Z"
                                AudioLooper.initial)))).
  cbn. lia.
Defined.

End SessionViewProperties.

(** ** Track: a whole recording take, and further examples *)

Section TrackTakeProperties.

Import WebAudio Media AudioTrack TrackGraph TrackBuild AudioTrackEffects SessionInvariant.

(** Chunks accumulate in arrival order; empty ones are dropped. *)
Lemma track_collects datas : forall t,
  fold_left (fun t d => mediaRecorder_ondataavailable d t) datas t =
  withRefs (fun r => setRecorder (mediaRecorderRef r)
                       (recordedChunksRef r ++ filter nonEmpty datas) r) t.
Proof.
  induction datas as [|d datas IH]; intro t.
  - destruct t as [p s [src g rv dl f imp mr ch] c k].
    cbn. unfold withRefs, setRecorder. cbn. rewrite app_nil_r. reflexivity.
  - cbn [fold_left filter]. rewrite IH. unfold mediaRecorder_ondataavailable, nonEmpty.
    destruct t as [p s [src g rv dl f imp mr ch] c k].
    destruct (Nat.ltb 0 (size d)); unfold withRefs, setRecorder; cbn;
      [rewrite <- app_assoc|]; reflexivity.
Qed.

(** X25: a take on a track: record, receive chunks, stop, decode.  The track
    ends not recording; with no non-empty chunk only the warning is
    logged; otherwise the bytes handed to the decoder are the non-empty
    chunks concatenated in arrival order, and a successful decode replaces
    the clip and sets the loop end to its duration, while a failed one
    leaves clip and region as they were and logs the error.  The loop
    start is never touched. *)
Theorem track_take_result decode t c datas :
  audioContext t = Some c ->
  let t1 := fold_left (fun t d => mediaRecorder_ondataavailable d t) datas
              (startRecording true t) in
  let t' := mediaRecorder_onstop decode (stopRecording t1) in
  let chunks := filter nonEmpty datas in
  isRecording (st t') = false /\
  loopStart (st t') = loopStart (st t) /\
  match chunks with
  | [] =>
      audioBuffer (st t') = audioBuffer (st t) /\ loopEnd (st t') = loopEnd (st t) /\
      console t' = console t ++ ["No data recorded"%string]
  | _ =>
      match decode (String.concat EmptyString chunks) with
      | Decoded buf =>
          audioBuffer (st t') = Some buf /\ loopEnd (st t') = duration buf /\
          console t' = console t
      | DecodeError _ =>
          audioBuffer (st t') = audioBuffer (st t) /\ loopEnd (st t') = loopEnd (st t) /\
          console t' = console t ++ ["Error decoding recorded audio:"%string]
      end
  end.
Proof.
  intros Hc. cbv zeta. rewrite track_collects. unfold startRecording. rewrite Hc.
  generalize (filter nonEmpty datas). intro chunks.
  destruct t as [p s [src g rv dl f imp mr ch] ac k]. cbn in Hc. subst ac.
  cbn -[String.concat].
  destruct chunks as [|ch1 rest].
  - cbn. repeat split.
  - cbn -[String.concat arrayBuffer]. unfold arrayBuffer. cbn [parts].
    destruct (decode (String.concat EmptyString (ch1 :: rest)));
      cbn -[String.concat]; repeat split.
Qed.

Lemma track_take_result_witness :
  let t' := mediaRecorder_onstop Scenario.decodesToClip2
              (stopRecording
                 (fold_left (fun t d => mediaRecorder_ondataavailable d t)
                    ["ab"%string; EmptyString; "cd"%string]
                    (startRecording true (Scenario.trackWithRegion 1 3)))) in
  audioBuffer (st t') = Some Scenario.clip2 /\
  loopStart (st t') = 1 /\ loopEnd (st t') = 2 /\
  recordedChunksRef (refs t') = ["ab"%string; "cd"%string].
Proof.
  intro t'.
  destruct (track_take_result Scenario.decodesToClip2 (Scenario.trackWithRegion 1 3)
              newAudioContext ["ab"%string; EmptyString; "cd"%string] eq_refl)
    as (_ & Hs & Hb & He & _).
  split; [exact Hb|]. split; [exact Hs|]. split; [exact He | reflexivity].
Defined.



End TrackTakeProperties.

(** ** Waveform: examples of whole gestures *)

Section WaveformGestureExamples.

Import WaveformDisplay.


Lemma position_within_clip_witness :
  let p := {| duration := 4; loopStart := 0; loopEnd := 4 |} in
  let rect := {| left := 10; width := 400; height := 128 |} in
  let st := {| canvasRef := Some rect; isDragging := false; dragStart := None;
               dragEnd := None; canvasWidth := 400; canvasHeight := 128 |} in
  0 <= getPositionFromEvent p st 310 <= 4.
Proof.
  intros p rect st.
  apply (position_within_clip p st rect 310 eq_refl); [reflexivity | discriminate |].
  split; discriminate.
Defined.

End WaveformGestureExamples.
